(** * disk_clean: the incremental size caches of [disk_monitor_gui.py]

    A shallow embedding of the two cache classes ([ScanCache], [DirCache])
    and of the scanning routines of [DiskMonitorGUI] that consult them,
    followed by the properties of the specification that concern them.

    Conventions of the embedding.
    - The operating system is a record of oracles ([OS]): [os.stat] on a
      path string, [os.path.islink], [os.path.normpath], [os.path.join].
      A call that raises in Python is an oracle that answers [None].
    - A directory as [os.scandir] enumerates it is a finite tree
      ([listing] / [dirent]); the scanning functions recurse on it.
    - Python dictionaries keyed by path are [gmap string _]; the nested
      [subdirs] dictionaries, whose order the GUI relies on, are
      association lists updated with [dict_set].
    - Instance attributes that the routines mutate are fields of an
      explicit state record that every routine takes and returns. *)

From Stdlib Require Import ZArith List Lia Bool Ascii.
From stdpp Require Import gmap strings list fin_maps pretty.

Set Warnings "-register-all".
Local Open Scope Z_scope.

(** ** Python values and exceptions *)

(** The JSON-compatible values that the file cache stores and that
    [json.load] can hand back. *)
Inductive pyval : Type :=
| PNone
| PBool (b : bool)
| PInt (z : Z)
| PStr (s : string)
| PList (l : list pyval)
| PDict (d : list (string * pyval)).

Inductive pyexn : Type :=
| AttributeError
| KeyError
| TypeError.

Inductive result (A : Type) : Type :=
| Ok (a : A)
| Raise (e : pyexn).
Arguments Ok {A} a.
Arguments Raise {A} e.

(** Truth value testing ([if not x]). *)
Definition py_truthy (v : pyval) : bool :=
  match v with
  | PNone => false
  | PBool b => b
  | PInt z => negb (z =? 0)
  | PStr s => negb (String.eqb s "")
  | PList l => match l with [] => false | _ => true end
  | PDict d => match d with [] => false | _ => true end
  end.

(** [d[k]] read on an association list: the first binding of [k]. *)
Fixpoint dict_get {V : Type} (d : list (string * V)) (k : string) : option V :=
  match d with
  | [] => None
  | (k', v) :: r => if String.eqb k' k then Some v else dict_get r k
  end.

(** [d[k] = v]: replaces the value of an existing key in place, appends a
    new key at the end (insertion order is kept, as in Python). *)
Fixpoint dict_set {V : Type} (d : list (string * V)) (k : string) (v : V)
  : list (string * V) :=
  match d with
  | [] => [(k, v)]
  | (k', v') :: r =>
      if String.eqb k' k then (k', v) :: r else (k', v') :: dict_set r k v
  end.

(** [x.get(k)]: [None] when the key is missing, [AttributeError] when [x]
    is not a dictionary. *)
Definition py_get (x : pyval) (k : string) : result pyval :=
  match x with
  | PDict d => Ok (default PNone (dict_get d k))
  | _ => Raise AttributeError
  end.

(** [x.get(k, default)]. *)
Definition py_get_default (x : pyval) (k : string) (dflt : pyval) : result pyval :=
  match x with
  | PDict d => Ok (default dflt (dict_get d k))
  | _ => Raise AttributeError
  end.

(** [x[k]] for a string [k]. *)
Definition py_subscript (x : pyval) (k : string) : result pyval :=
  match x with
  | PDict d =>
      match dict_get d k with
      | Some v => Ok v
      | None => Raise KeyError
      end
  | _ => Raise TypeError
  end.

(** [x[k] = v] on a dictionary; other values are left alone (the program
    only assigns into values on which [.get] has just succeeded). *)
Definition py_setitem (x : pyval) (k : string) (v : pyval) : pyval :=
  match x with
  | PDict d => PDict (dict_set d k v)
  | _ => x
  end.

(** [k in x] for a dictionary [x]. *)
Definition py_has_key (x : pyval) (k : string) : bool :=
  match x with
  | PDict d => bool_decide (is_Some (dict_get d k))
  | _ => false
  end.

(** [x >= n] for an integer [n]. *)
Definition py_ge_int (x : pyval) (n : Z) : result bool :=
  match x with
  | PInt z => Ok (n <=? z)
  | PBool b => Ok (n <=? (if b then 1 else 0))
  | _ => Raise TypeError
  end.

(** [pattern in s] for two strings. *)
Fixpoint str_contains (pattern s : string) : bool :=
  String.prefix pattern s
  || match s with
     | EmptyString => false
     | String _ rest => str_contains pattern rest
     end.

(** [x == s] for a string [s]. *)
Definition py_eq_str (x : pyval) (s : string) : bool :=
  match x with
  | PStr t => String.eqb t s
  | _ => false
  end.

(** ** The operating system *)

(** What [os.stat] returns. [st_mtime] is a float in Python; the program
    only renders it into signature strings, so the model keeps the
    timestamp as an integer number of ticks and renders it in decimal. *)
Record stat_result : Type := {
  st_size : Z;
  st_mtime : Z;
  st_ino : Z;
}.

Record OS : Type := {
  os_stat : string → option stat_result;
  os_path_islink : string → bool;
  os_path_normpath : string → string;
  os_path_join : string → string → string;
}.

(** The library calls of the file scan that the model does not compute. *)
Record Runtime : Type := {
  str_lower : string → string;                (* s.lower() *)
  os_path_basename : string → string;
  os_path_splitext_ext : string → string;     (* os.path.splitext(p)[1] *)
  (* datetime.fromtimestamp(t).isoformat(); [None] when it raises *)
  fromtimestamp_isoformat : Z → option string;
  (* (datetime.now() - datetime.fromtimestamp(t)).days *)
  age_in_days : Z → option Z;
}.

(** ** class ScanCache *)

Module ScanCache.

(** [self.cache] and [self.cache_index], in insertion order. *)
Record t : Type := {
  cache : list (string * pyval);
  cache_index : list (string * pyval);
}.

(** The dictionary built by [get_file_signature]. *)
Record file_signature : Type := {
  size : Z;
  mtime : Z;
  signature : string;
}.

Definition signature_dict (sig : file_signature) : pyval :=
  PDict [("size", PInt (size sig)); ("mtime", PInt (mtime sig));
         ("signature", PStr (signature sig))].

Definition get_file_signature (os : OS) (file_path : string)
  : option file_signature :=
  match os_stat os file_path with
  | Some stat =>
      Some {| size := st_size stat;
              mtime := st_mtime stat;
              signature := pretty (st_size stat) +:+ "_" +:+ pretty (st_mtime stat) |}
  | None => None
  end.

(** Returns the pair [(valid, entry)]; [PNone] is Python's [None]. *)
Definition is_cached (os : OS) (self : t) (file_path : string)
  : result (bool * pyval) :=
  match get_file_signature os file_path with
  | None => Ok (false, PNone)
  | Some current_sig =>
      let cached_sig := default PNone (dict_get (cache_index self) file_path) in
      if negb (py_truthy cached_sig) then Ok (false, PNone)
      else
        match py_get cached_sig "signature" with
        | Raise e => Raise e
        | Ok stored =>
            if py_eq_str stored (signature current_sig)
            then Ok (true, default PNone (dict_get (cache self) file_path))
            else Ok (false, PNone)
        end
  end.

Definition update_cache (os : OS) (self : t) (file_path : string)
  (file_info : pyval) : t :=
  match get_file_signature os file_path with
  | Some sig =>
      {| cache_index := dict_set (cache_index self) file_path (signature_dict sig);
         cache := dict_set (cache self) file_path file_info |}
  | None => self
  end.

Definition empty : t := {| cache := []; cache_index := [] |}.

End ScanCache.

(** ** Exclusion policy and cache keys *)

(** [self.exclude_dirs] as [__init__] configures it. *)
Definition exclude_dirs : list string :=
  ["C:\Windows"; "C:\$Recycle.Bin"; "C:\System Volume Information";
   "C:\Program Files"; "C:\Program Files (x86)"; "C:\ProgramData"].

(** [_should_exclude], over the configured list [excl]. *)
Definition _should_exclude (os : OS) (excl : list string) (path : string) : bool :=
  let path := os_path_normpath os path in
  existsb (λ exclude, String.prefix (os_path_normpath os exclude) path) excl.

(** [str(b)] for a Python [bool]. *)
Definition py_str_bool (b : bool) : string :=
  if b then "True" else "False".

(** [f"{dir_path}_system_{include_system}"]. *)
Definition cache_key (dir_path : string) (include_system : bool) : string :=
  dir_path +:+ "_system_" +:+ py_str_bool include_system.

(** ** Directory trees, as [os.scandir] enumerates them *)

(** [listing] is the outcome of [os.scandir(path)]; a [dirent] is one
    [os.DirEntry], classified the way the scanning loops test it
    ([is_file(follow_symlinks=False)], then [is_dir(follow_symlinks=False)]). *)
Inductive listing : Type :=
| ScandirPermissionError              (* os.scandir raises PermissionError *)
| ScandirError                        (* os.scandir raises another exception *)
| ScandirOk (entries : list dirent)
with dirent : Type :=
| FileEntry (name : string) (stat : option stat_result)
    (* is_file() holds; entry.stat() returns [stat], or raises OSError *)
| DirEntry (name : string) (sub : listing)
    (* is_dir() holds; [sub] is what os.scandir(entry.path) yields *)
| OtherEntry (name : string)          (* neither a file nor a directory *)
| BrokenEntry (name : string).        (* is_file() or is_dir() raises OSError *)

Definition entry_name (e : dirent) : string :=
  match e with
  | FileEntry name _ | DirEntry name _ | OtherEntry name | BrokenEntry name => name
  end.

(** The nested dictionaries [{'size', 'file_count', 'subdirs'}]. *)
Inductive summary : Type :=
| Summary (size file_count : Z) (subdirs : list (string * summary)).

Definition summary_size (s : summary) : Z :=
  match s with Summary size _ _ => size end.
Definition summary_file_count (s : summary) : Z :=
  match s with Summary _ file_count _ => file_count end.

(** The sums over a [subdirs] dictionary and over the files that a
    directory holds directly, in which the aggregate invariant is stated. *)
Definition sum_sizes (subdirs : list (string * summary)) : Z :=
  foldr (λ kv acc, summary_size kv.2 + acc) 0 subdirs.

Definition sum_file_counts (subdirs : list (string * summary)) : Z :=
  foldr (λ kv acc, summary_file_count kv.2 + acc) 0 subdirs.

(** The files of [entries] whose [entry.stat()] succeeds. *)
Definition direct_files (entries : list dirent) : list stat_result :=
  omap (λ e, match e with FileEntry _ (Some stat) => Some stat | _ => None end)
       entries.

Definition direct_size (entries : list dirent) : Z :=
  foldr (λ stat acc, st_size stat + acc) 0 (direct_files entries).

Definition direct_count (entries : list dirent) : Z :=
  Z.of_nat (length (direct_files entries)).

Definition listing_entries (dir : listing) : list dirent :=
  match dir with
  | ScandirOk entries => entries
  | ScandirPermissionError | ScandirError => []
  end.

(** An entry whose classification or [stat] raises. *)
Definition entry_fails (e : dirent) : bool :=
  match e with
  | FileEntry _ None | BrokenEntry _ => true
  | _ => false
  end.

(** The tree without its failing entries, at every depth. *)
Fixpoint accessible_entries (accessible : listing → listing)
    (entries : list dirent) : list dirent :=
  match entries with
  | [] => []
  | e :: rest =>
      match e with
      | DirEntry name sub =>
          DirEntry name (accessible sub) :: accessible_entries accessible rest
      | _ =>
          if entry_fails e then accessible_entries accessible rest
          else e :: accessible_entries accessible rest
      end
  end.

Fixpoint accessible (dir : listing) : listing :=
  match dir with
  | ScandirOk entries => ScandirOk (accessible_entries accessible entries)
  | ScandirPermissionError => ScandirPermissionError
  | ScandirError => ScandirError
  end.

(** ** class DirCache *)

Module DirCache.

(** A value of [self.dir_cache]. [signature] is optional because the
    dictionary is loaded from [dir_cache.json] and read with [.get].
    The [cached_time] stamp is written and never read; it is left out. *)
Record entry : Type := {
  signature : option string;
  size : Z;
  file_count : Z;
  subdirs : list (string * summary);
}.

Abbreviation t := (gmap string entry).

Definition get_dir_signature (os : OS) (dir_path : string) : option string :=
  match os_stat os dir_path with
  | Some stat => Some (pretty (st_mtime stat) +:+ "_" +:+ pretty (st_ino stat))
  | None => None
  end.

Definition is_cached (os : OS) (self : t) (dir_path : string)
  : bool * option entry :=
  match self !! dir_path with
  | None => (false, None)
  | Some cached_data =>
      let current_sig := get_dir_signature os dir_path in
      if decide (signature cached_data = current_sig)
      then (true, Some cached_data)
      else (false, None)
  end.

Definition update_cache (os : OS) (self : t) (dir_path : string)
  (size file_count : Z) (subdirs : list (string * summary)) : t :=
  match get_dir_signature os dir_path with
  | Some sig =>
      <[dir_path := {| signature := Some sig; size := size;
                       file_count := file_count; subdirs := subdirs |}]> self
  | None => self
  end.

End DirCache.

(** ** class DiskMonitorGUI: state *)

(** A cooperative stop flag ([self.scanning], [self.dir_scanning]) is
    cleared by the GUI thread while the worker runs. [Some n]: the next
    [n] reads by the worker still see [True], every later one sees
    [False]; [None]: nobody clears the flag during the pass. *)
Definition flag : Type := option nat.

Definition flag_read (f : flag) : bool * flag :=
  match f with
  | None => (true, None)
  | Some O => (false, Some O)
  | Some (S n) => (true, Some n)
  end.

(** The enumeration calls a directory pass makes, in order. *)
Inductive oscall : Type :=
| Scandir (path : string)       (* os.scandir(path) *)
| EntryStat (path : string).    (* entry.stat() of the entry at [path] *)

(** The text of the status column of the directory tree. *)
Inductive status : Type :=
| StatusCached           (* "缓存" *)
| StatusScanned          (* "已扫描" *)
| StatusNoPermission     (* "无权限" *)
| StatusError.           (* "错误" *)

Module DiskMonitorGUI.

(** The attributes that the scanning routines read and write. The
    result lists [large_files] and [useless_files] and the Tk widgets
    are outputs that no cache operation reads; they are left out. *)
Record t : Type := {
  min_size_mb : Z;
  scanning : flag;
  scanned_count : Z;
  cached_count : Z;
  cache : ScanCache.t;
  dir_cache : DirCache.t;
  dir_scanning : flag;
  include_system_var : bool;
  (* durable storage: scan_cache.json with cache_index.json, dir_cache.json *)
  scan_cache_files : ScanCache.t;
  dir_cache_file : DirCache.t;
  (* the enumeration calls made so far *)
  oscalls : list oscall;
}.

Definition set_scanning (f : flag) (self : t) : t :=
  {| min_size_mb := min_size_mb self; scanning := f;
     scanned_count := scanned_count self; cached_count := cached_count self;
     cache := cache self; dir_cache := dir_cache self;
     dir_scanning := dir_scanning self;
     include_system_var := include_system_var self;
     scan_cache_files := scan_cache_files self;
     dir_cache_file := dir_cache_file self; oscalls := oscalls self |}.

Definition set_scanned_count (n : Z) (self : t) : t :=
  {| min_size_mb := min_size_mb self; scanning := scanning self;
     scanned_count := n; cached_count := cached_count self;
     cache := cache self; dir_cache := dir_cache self;
     dir_scanning := dir_scanning self;
     include_system_var := include_system_var self;
     scan_cache_files := scan_cache_files self;
     dir_cache_file := dir_cache_file self; oscalls := oscalls self |}.

Definition set_cached_count (n : Z) (self : t) : t :=
  {| min_size_mb := min_size_mb self; scanning := scanning self;
     scanned_count := scanned_count self; cached_count := n;
     cache := cache self; dir_cache := dir_cache self;
     dir_scanning := dir_scanning self;
     include_system_var := include_system_var self;
     scan_cache_files := scan_cache_files self;
     dir_cache_file := dir_cache_file self; oscalls := oscalls self |}.

Definition set_cache (c : ScanCache.t) (self : t) : t :=
  {| min_size_mb := min_size_mb self; scanning := scanning self;
     scanned_count := scanned_count self; cached_count := cached_count self;
     cache := c; dir_cache := dir_cache self;
     dir_scanning := dir_scanning self;
     include_system_var := include_system_var self;
     scan_cache_files := scan_cache_files self;
     dir_cache_file := dir_cache_file self; oscalls := oscalls self |}.

Definition set_dir_cache (c : DirCache.t) (self : t) : t :=
  {| min_size_mb := min_size_mb self; scanning := scanning self;
     scanned_count := scanned_count self; cached_count := cached_count self;
     cache := cache self; dir_cache := c;
     dir_scanning := dir_scanning self;
     include_system_var := include_system_var self;
     scan_cache_files := scan_cache_files self;
     dir_cache_file := dir_cache_file self; oscalls := oscalls self |}.

Definition set_dir_scanning (f : flag) (self : t) : t :=
  {| min_size_mb := min_size_mb self; scanning := scanning self;
     scanned_count := scanned_count self; cached_count := cached_count self;
     cache := cache self; dir_cache := dir_cache self;
     dir_scanning := f;
     include_system_var := include_system_var self;
     scan_cache_files := scan_cache_files self;
     dir_cache_file := dir_cache_file self; oscalls := oscalls self |}.

Definition set_scan_cache_files (c : ScanCache.t) (self : t) : t :=
  {| min_size_mb := min_size_mb self; scanning := scanning self;
     scanned_count := scanned_count self; cached_count := cached_count self;
     cache := cache self; dir_cache := dir_cache self;
     dir_scanning := dir_scanning self;
     include_system_var := include_system_var self;
     scan_cache_files := c;
     dir_cache_file := dir_cache_file self; oscalls := oscalls self |}.

Definition set_dir_cache_file (c : DirCache.t) (self : t) : t :=
  {| min_size_mb := min_size_mb self; scanning := scanning self;
     scanned_count := scanned_count self; cached_count := cached_count self;
     cache := cache self; dir_cache := dir_cache self;
     dir_scanning := dir_scanning self;
     include_system_var := include_system_var self;
     scan_cache_files := scan_cache_files self;
     dir_cache_file := c; oscalls := oscalls self |}.

Definition set_oscalls (l : list oscall) (self : t) : t :=
  {| min_size_mb := min_size_mb self; scanning := scanning self;
     scanned_count := scanned_count self; cached_count := cached_count self;
     cache := cache self; dir_cache := dir_cache self;
     dir_scanning := dir_scanning self;
     include_system_var := include_system_var self;
     scan_cache_files := scan_cache_files self;
     dir_cache_file := dir_cache_file self; oscalls := l |}.

(** [self.cache.save_cache()] and [self.dir_cache.save_cache()]: the
    in-memory dictionaries replace the contents of the JSON files. *)
Definition cache_save_cache (self : t) : t :=
  set_scan_cache_files (cache self) self.

Definition dir_cache_save_cache (self : t) : t :=
  set_dir_cache_file (dir_cache self) self.

(** One read of [self.dir_scanning] by the worker thread. *)
Definition read_dir_scanning (self : t) : bool * t :=
  let (b, f) := flag_read (dir_scanning self) in (b, set_dir_scanning f self).

Definition read_scanning (self : t) : bool * t :=
  let (b, f) := flag_read (scanning self) in (b, set_scanning f self).

Definition record_call (c : oscall) (self : t) : t :=
  set_oscalls (oscalls self ++ [c]) self.

(** What a directory visit returns: [(total_size, file_count, subdirs)]. *)
Definition scan_result : Type := Z * Z * list (string * summary).

(** What [_scan_directory] hands to the directory tree of the GUI
    ([_add_dir_to_tree], [_add_subdirs_to_tree], [_dir_scan_complete]). *)
Record report : Type := {
  report_size : Z;
  report_file_count : Z;
  report_status : status;
  report_subdirs : list (string * summary);
}.

Section DirectoryScan.

Context (os : OS) (excl : list string).

(** The body of [for entry in os.scandir(dir_path)], which
    [_scan_directory] and [_scan_directory_recursive] both contain
    (the former also collects two lists of names that it only
    prints). [recurse] is [self._scan_directory_recursive]. The
    boolean of the result tells whether the loop ran to its end
    ([true]) or left through [if not self.dir_scanning: return]. *)
Fixpoint scan_entries
    (recurse : listing → string → bool → t → t * scan_result)
    (dir_path : string) (include_system : bool) (entries : list dirent)
    (total_size file_count : Z) (subdirs : list (string * summary))
    (self : t) {struct entries} : t * (bool * scan_result) :=
  match entries with
  | [] => (self, (true, (total_size, file_count, subdirs)))
  | entry :: rest =>
      let (running, self) := read_dir_scanning self in
      if negb running
      then (self, (false, (total_size, file_count, subdirs)))
      else
        match entry with
        | FileEntry name ostat =>
            let self :=
              record_call (EntryStat (os_path_join os dir_path name)) self in
            match ostat with
            | Some stat =>
                scan_entries recurse dir_path include_system rest
                  (total_size + st_size stat) (file_count + 1) subdirs self
            | None =>
                scan_entries recurse dir_path include_system rest
                  total_size file_count subdirs self
            end
        | DirEntry name sub =>
            let path := os_path_join os dir_path name in
            if negb include_system && _should_exclude os excl path
            then
              scan_entries recurse dir_path include_system rest
                total_size file_count subdirs self
            else
              let '(self, (sub_size, sub_count, sub_subdirs)) :=
                recurse sub path include_system self in
              if (0 <? sub_size) || (0 <? sub_count)
              then
                scan_entries recurse dir_path include_system rest
                  (total_size + sub_size) (file_count + sub_count)
                  (dict_set subdirs name
                     (Summary sub_size sub_count sub_subdirs))
                  self
              else
                scan_entries recurse dir_path include_system rest
                  total_size file_count subdirs self
        | OtherEntry _ | BrokenEntry _ =>
            scan_entries recurse dir_path include_system rest
              total_size file_count subdirs self
        end
  end.

(** [dir] is what [os.scandir(dir_path)] yields. *)
Fixpoint _scan_directory_recursive (dir : listing) (dir_path : string)
    (include_system : bool) (self : t) {struct dir} : t * scan_result :=
  let dir_path := os_path_normpath os dir_path in
  let cache_key := cache_key dir_path include_system in
  match DirCache.is_cached os (dir_cache self) cache_key with
  | (true, Some cached_data) =>
      (self, (DirCache.size cached_data, DirCache.file_count cached_data,
              DirCache.subdirs cached_data))
  | _ =>
      let self := record_call (Scandir dir_path) self in
      match dir with
      | ScandirOk entries =>
          let '(self, (completed, (total_size, file_count, subdirs))) :=
            scan_entries _scan_directory_recursive dir_path include_system
              entries 0 0 [] self in
          if completed
          then
            (set_dir_cache
               (DirCache.update_cache os (dir_cache self) cache_key
                  total_size file_count subdirs) self,
             (total_size, file_count, subdirs))
          else (self, (total_size, file_count, subdirs))
      | ScandirPermissionError | ScandirError =>
          (set_dir_cache
             (DirCache.update_cache os (dir_cache self) cache_key 0 0 [])
             self,
           (0, 0, []))
      end
  end.

(** The tail of [_scan_directory], after the totals are known. *)
Definition scan_directory_finish (parent_item : string)
    (total_size file_count : Z) (st : status)
    (subdirs : list (string * summary)) (self : t) : t * option report :=
  if String.eqb parent_item ""
  then
    (set_dir_scanning (Some O) (dir_cache_save_cache self),
     Some {| report_size := total_size; report_file_count := file_count;
             report_status := st; report_subdirs := subdirs |})
  else (self, None).

(** [root] is what [os.scandir(root_path)] yields. The result is
    [None] when the routine returns without reporting to the GUI. *)
Definition _scan_directory (root : listing) (root_path parent_item : string)
    (self : t) : t * option report :=
  let root_path := os_path_normpath os root_path in
  let include_system := include_system_var self in
  let (running, self) := read_dir_scanning self in
  if negb running then (self, None)
  else
    let cache_key := cache_key root_path include_system in
    match DirCache.is_cached os (dir_cache self) cache_key with
    | (true, Some cached_data) =>
        scan_directory_finish parent_item (DirCache.size cached_data)
          (DirCache.file_count cached_data) StatusCached
          (DirCache.subdirs cached_data) self
    | _ =>
        let self := record_call (Scandir root_path) self in
        match root with
        | ScandirOk entries =>
            let '(self, (completed, (total_size, file_count, subdirs))) :=
              scan_entries _scan_directory_recursive root_path
                include_system entries 0 0 [] self in
            if completed
            then
              let self :=
                set_dir_cache
                  (DirCache.update_cache os (dir_cache self) cache_key
                     total_size file_count subdirs) self in
              let self :=
                if file_count mod 100 =? 0
                then dir_cache_save_cache self else self in
              scan_directory_finish parent_item total_size file_count
                StatusScanned subdirs self
            else (self, None)
        | ScandirPermissionError =>
            scan_directory_finish parent_item 0 0 StatusNoPermission [] self
        | ScandirError =>
            scan_directory_finish parent_item 0 0 StatusError [] self
        end
    end.

End DirectoryScan.

(** *** The file scan *)

(** [self.useless_extensions]. *)
Definition useless_extensions : list string :=
  [".tmp"; ".temp"; ".log"; ".bak"; ".old"; ".swp"; ".swo";
   ".crdownload"; ".part"; ".tmp1"; ".tmp2"; ".dmp"; ".err";
   ".cache"; ".db-journal"; ".sqlite-journal"].

Section FileScan.

Context (os : OS) (rt : Runtime) (excl : list string).

Definition _is_useless_file (file_path : string) : bool :=
  let file_name := str_lower rt (os_path_basename rt file_path) in
  let ext := str_lower rt (os_path_splitext_ext rt file_path) in
  if existsb (String.eqb ext) useless_extensions then true
  else
    let useless_patterns := ["temp"; "tmp"; "cache"; ".old"; ".bak"; "crash"] in
    existsb (λ pattern, str_contains pattern file_name) useless_patterns.

Definition _get_useless_reason (file_path : string) : string :=
  let file_name := str_lower rt (os_path_basename rt file_path) in
  let ext := str_lower rt (os_path_splitext_ext rt file_path) in
  if existsb (String.eqb ext) useless_extensions
  then "临时文件 (" +:+ ext +:+ ")"
  else if str_contains "temp" file_name || str_contains "tmp" file_name
  then "临时文件"
  else if str_contains "cache" file_name then "缓存文件"
  else if str_contains ".old" file_name || str_contains ".bak" file_name
  then "备份文件"
  else "可疑文件".

(** [_update_from_cache(cached_info)], where [cached_info] is the
    object that [self.cache.cache] holds for [file_path]: the
    assignment to [cached_info['source']] changes the cache. *)
Definition _update_from_cache (file_path : string) (cached_info : pyval)
    (self : t) : result t :=
  match py_get_default cached_info "size" (PInt 0) with
  | Raise e => Raise e
  | Ok size =>
      match py_ge_int size (min_size_mb self * 1024 * 1024) with
      | Raise e => Raise e
      | Ok false => Ok self
      | Ok true =>
          let marked := py_setitem cached_info "source" (PStr "缓存") in
          Ok (set_cache
                {| ScanCache.cache :=
                     dict_set (ScanCache.cache (cache self)) file_path marked;
                   ScanCache.cache_index := ScanCache.cache_index (cache self) |}
                self)
      end
  end.

(** One iteration of the loop of [_load_from_cache]; an exception is
    swallowed by [except: continue]. *)
Definition load_item (min_size : Z) (file_path : string) (file_info : pyval)
    (self : t) : t :=
  match ScanCache.get_file_signature os file_path with
  | None => self
  | Some current_sig =>
      let cached_sig :=
        default PNone (dict_get (ScanCache.cache_index (cache self)) file_path) in
      if negb (py_truthy cached_sig) then self
      else
        match py_subscript cached_sig "signature" with
        | Raise _ => self
        | Ok stored =>
            if negb (py_eq_str stored (ScanCache.signature current_sig))
            then self
            else
              match py_get_default file_info "size" (PInt 0) with
              | Raise _ => self
              | Ok size =>
                  match py_ge_int size min_size with
                  | Raise _ => self
                  | Ok large =>
                      if large || py_has_key file_info "reason"
                      then
                        let marked :=
                          py_setitem file_info "source" (PStr "缓存") in
                        set_cache
                          {| ScanCache.cache :=
                               dict_set (ScanCache.cache (cache self))
                                 file_path marked;
                             ScanCache.cache_index :=
                               ScanCache.cache_index (cache self) |}
                          self
                      else self
                  end
              end
        end
  end.

(** The loop of [_load_from_cache] over [self.cache.cache.items()]. *)
Fixpoint load_items (min_size : Z) (items : list (string * pyval))
    (self : t) : t :=
  match items with
  | [] => self
  | (file_path, file_info) :: rest =>
      let (running, self) := read_scanning self in
      if negb running then self
      else load_items min_size rest (load_item min_size file_path file_info self)
  end.

Definition _load_from_cache (min_size : Z) (self : t) : t :=
  load_items min_size (ScanCache.cache (cache self)) self.

(** The cache lookup at the head of the loop body of [_scan_disk]:
    [Some self'] when the iteration ends there ([continue], after a
    hit or an exception), [None] when the file has to be scanned. *)
Definition check_cache (min_size : Z) (file_path : string) (self : t)
  : option t :=
  match ScanCache.is_cached os (cache self) file_path with
  | Raise _ => Some self
  | Ok (is_cached, cached_info) =>
      if is_cached && py_truthy cached_info
      then
        let self := set_cached_count (cached_count self + 1) self in
        match py_get_default cached_info "size" (PInt 0) with
        | Raise _ => Some self
        | Ok size =>
            match py_ge_int size min_size with
            | Raise _ => Some self
            | Ok false => Some self
            | Ok true =>
                match _update_from_cache file_path cached_info self with
                | Raise _ => Some self
                | Ok self' => Some self'
                end
            end
        end
      else None
  end.

(** The statements of the loop body that follow the cache lookup. *)
Definition scan_fresh_file (min_size : Z) (file_path file : string)
    (total_scanned : Z) (self : t) : Z * t :=
  match os_stat os file_path with
  | None => (total_scanned, self)
  | Some stat =>
      let file_size := st_size stat in
      let large :=
        if min_size <=? file_size
        then
          match fromtimestamp_isoformat rt (st_mtime stat) with
          | None => None
          | Some modified =>
              let ext := str_lower rt (os_path_splitext_ext rt file) in
              let file_info :=
                PDict [("path", PStr file_path); ("size", PInt file_size);
                       ("modified", PStr modified);
                       ("type", PStr (if String.eqb ext "" then "未知" else ext));
                       ("source", PStr "扫描")] in
              Some (set_cache
                      (ScanCache.update_cache os (cache self) file_path file_info)
                      self)
          end
        else Some self in
      match large with
      | None => (total_scanned, self)
      | Some self =>
          let useless :=
            if _is_useless_file file_path
            then
              match age_in_days rt (st_mtime stat) with
              | None => None
              | Some age_days =>
                  let useless_info :=
                    PDict [("path", PStr file_path); ("size", PInt file_size);
                           ("reason", PStr (_get_useless_reason file_path));
                           ("age_days", PInt age_days);
                           ("source", PStr "扫描")] in
                  Some (set_cache
                          (ScanCache.update_cache os (cache self) file_path
                             useless_info)
                          self)
              end
            else Some self in
          match useless with
          | None => (total_scanned, self)
          | Some self =>
              let total_scanned := total_scanned + 1 in
              let self := set_scanned_count (scanned_count self + 1) self in
              let self :=
                if total_scanned mod 500 =? 0
                then cache_save_cache self else self in
              (total_scanned, self)
          end
      end
  end.

(** The body of [for file in files]. *)
Definition scan_file (use_cache : bool) (min_size : Z) (root file : string)
    (total_scanned : Z) (self : t) : Z * t :=
  let file_path := os_path_join os root file in
  if os_path_islink os file_path then (total_scanned, self)
  else
    match (if use_cache then check_cache min_size file_path self else None) with
    | Some self' => (total_scanned, self')
    | None => scan_fresh_file min_size file_path file total_scanned self
    end.

Fixpoint scan_files (use_cache : bool) (min_size : Z) (root : string)
    (files : list string) (total_scanned : Z) (self : t) : Z * t :=
  match files with
  | [] => (total_scanned, self)
  | file :: rest =>
      let (running, self) := read_scanning self in
      if negb running then (total_scanned, self)
      else
        let (total_scanned, self) :=
          scan_file use_cache min_size root file total_scanned self in
        scan_files use_cache min_size root rest total_scanned self
  end.

(** The names that [os.walk] lists as files: every entry that is not
    a directory. *)
Definition walk_files (entries : list dirent) : list string :=
  omap (λ e, match e with DirEntry _ _ => None | _ => Some (entry_name e) end)
       entries.

(** [os.walk] descending into the directories that the loop body kept
    in [dirs]. The boolean tells whether the [for] loop of
    [_scan_disk] is still running ([false] after its [break]). *)
Fixpoint walk_subdirs
    (walk : listing → string → Z → t → bool * (Z * t))
    (root : string) (entries : list dirent) (total_scanned : Z) (self : t)
  : bool * (Z * t) :=
  match entries with
  | [] => (true, (total_scanned, self))
  | DirEntry name sub :: rest =>
      let new_path := os_path_join os root name in
      if _should_exclude os excl new_path || os_path_islink os new_path
      then walk_subdirs walk root rest total_scanned self
      else
        let '(running, (total_scanned, self)) :=
          walk sub new_path total_scanned self in
        if running then walk_subdirs walk root rest total_scanned self
        else (false, (total_scanned, self))
  | _ :: rest => walk_subdirs walk root rest total_scanned self
  end.

(** [for root, dirs, files in os.walk(root)] with its body; [dir] is
    what [os.scandir(root)] yields ([os.walk] skips a directory that
    it cannot list). *)
Fixpoint walk_disk (use_cache : bool) (min_size : Z) (dir : listing)
    (root : string) (total_scanned : Z) (self : t) {struct dir}
  : bool * (Z * t) :=
  match dir with
  | ScandirOk entries =>
      let (running, self) := read_scanning self in
      if negb running then (false, (total_scanned, self))
      else
        let (total_scanned, self) :=
          scan_files use_cache min_size root (walk_files entries)
            total_scanned self in
        walk_subdirs (walk_disk use_cache min_size) root entries
          total_scanned self
  | ScandirPermissionError | ScandirError => (true, (total_scanned, self))
  end.

(** [c_drive] is the tree under [C:\]. *)
Definition _scan_disk (c_drive : listing) (use_cache : bool) (self : t) : t :=
  let min_size := min_size_mb self * 1024 * 1024 in
  let self := if use_cache then _load_from_cache min_size self else self in
  let '(_, (_, self)) := walk_disk use_cache min_size c_drive "C:\" 0 self in
  set_scanning (Some O) (cache_save_cache self).

End FileScan.

(** [_start_dir_scan], for an existing directory: raises the flag and
    starts the worker. [stop] tells when the GUI thread will clear the
    flag during the pass that follows. *)
Definition _start_dir_scan (stop : flag) (self : t) : t :=
  set_dir_scanning stop self.

End DiskMonitorGUI.

(** ** Importing a cache *)

(** The JSON object [_import_cache] reads: its ['cache'] and
    ['cache_index'] members, when present. *)
Record import_blob : Type := {
  blob_cache : option (list (string * pyval));
  blob_cache_index : option (list (string * pyval));
}.

(** [_import_cache], once a file was chosen and parsed: both maps are
    replaced ([data.get(..., {})]) and the result is saved. *)
Definition _import_cache (data : import_blob) (self : DiskMonitorGUI.t)
  : DiskMonitorGUI.t :=
  let imported :=
    {| ScanCache.cache := default [] (blob_cache data);
       ScanCache.cache_index := default [] (blob_cache_index data) |} in
  DiskMonitorGUI.cache_save_cache (DiskMonitorGUI.set_cache imported self).

(** ** Concrete systems used by the examples *)

Module Fixtures.

(** A system whose paths are already normalised and joined with [sep];
    [files] is the table [os.stat] answers from. *)
Definition system (sep : string) (files : list (string * stat_result)) : OS :=
  {| os_stat := dict_get files;
     os_path_islink := λ _, false;
     os_path_normpath := λ p, p;
     os_path_join := λ d n, d +:+ sep +:+ n |}.

Definition mkstat (size mtime ino : Z) : stat_result :=
  {| st_size := size; st_mtime := mtime; st_ino := ino |}.

(** A machine on which nothing can be stat'ed. *)
Definition nt_empty : OS := system "\" [].

(** One readable file. *)
Definition nt_one_file : OS := system "\" [("C:\big.iso", mkstat 700 42 7)].

Definition old_info : pyval := PDict [("path", PStr "C:\gone.bin"); ("size", PInt 10)].
Definition new_info : pyval := PDict [("path", PStr "C:\gone.bin"); ("size", PInt 20)].

(** A file cache that remembers [C:\gone.bin]. *)
Definition cache_with_gone : ScanCache.t :=
  {| ScanCache.cache := [("C:\gone.bin", old_info)];
     ScanCache.cache_index :=
       [("C:\gone.bin",
         ScanCache.signature_dict
           {| ScanCache.size := 10; ScanCache.mtime := 1;
              ScanCache.signature := "10_1" |})] |}.

(** An index whose value for [C:\gone.bin] is not even a dictionary. *)
Definition cache_with_odd_index : ScanCache.t :=
  {| ScanCache.cache := [("C:\gone.bin", old_info)];
     ScanCache.cache_index := [("C:\gone.bin", PInt 5)] |}.

(** A freshly started GUI with empty caches, whose directory pass will be
    stopped according to [stop]. *)
Definition gui (stop : flag) : DiskMonitorGUI.t :=
  {| DiskMonitorGUI.min_size_mb := 10;
     DiskMonitorGUI.scanning := None;
     DiskMonitorGUI.scanned_count := 0;
     DiskMonitorGUI.cached_count := 0;
     DiskMonitorGUI.cache := ScanCache.empty;
     DiskMonitorGUI.dir_cache := ∅;
     DiskMonitorGUI.dir_scanning := stop;
     DiskMonitorGUI.include_system_var := true;
     DiskMonitorGUI.scan_cache_files := ScanCache.empty;
     DiskMonitorGUI.dir_cache_file := ∅;
     DiskMonitorGUI.oscalls := [] |}.

(** An export whose index knows [C:\big.iso] but whose cache does not. *)
Definition index_only_blob : import_blob :=
  {| blob_cache := Some [];
     blob_cache_index :=
       Some [("C:\big.iso",
              PDict [("size", PInt 700); ("mtime", PInt 42);
                     ("signature", PStr "700_42")])] |}.

(** The example of the specification: [/R] holds the file [a] (1000
    bytes) and the directory [S], which holds the file [b] (2000 bytes).
    No path of the machine is named like a cache key. *)
Definition tree_R : listing :=
  ScandirOk
    [FileEntry "a" (Some (mkstat 1000 5 11));
     DirEntry "S" (ScandirOk [FileEntry "b" (Some (mkstat 2000 6 12))])].

Definition posix_R : OS :=
  system "/" [("/R", mkstat 4096 7 10); ("/R/a", mkstat 1000 5 11);
              ("/R/S", mkstat 4096 8 13); ("/R/S/b", mkstat 2000 6 12)].

(** A machine on which the cache keys of [/R] and of [/R/S] name files:
    [/R_system_True], next to [/R], and [/R/S_system_True], inside it.
    [/R] lists that empty file and then, last, the directory [S], which
    holds two files. *)
Definition tree_last_child : listing :=
  ScandirOk
    [FileEntry "S_system_True" (Some (mkstat 0 9 21));
     DirEntry "S"
       (ScandirOk [FileEntry "b1" (Some (mkstat 2000 6 12));
                   FileEntry "b2" (Some (mkstat 3000 6 14))])].

Definition posix_keyed : OS :=
  system "/" [("/R", mkstat 4096 7 10); ("/R_system_True", mkstat 0 9 20);
              ("/R/S", mkstat 4096 8 13); ("/R/S_system_True", mkstat 0 9 21)].

(** [/R] with one readable file, one file whose [stat] is refused and
    one entry that vanished; and [/R] with the readable file alone. *)
Definition tree_unreadable : listing :=
  ScandirOk [FileEntry "a" (Some (mkstat 1000 5 11));
             FileEntry "locked" None; BrokenEntry "gone"].

Definition tree_readable : listing :=
  ScandirOk [FileEntry "a" (Some (mkstat 1000 5 11))].

(** Library calls that leave names as they are and never raise. *)
Definition rt_plain : Runtime :=
  {| str_lower := λ s, s;
     os_path_basename := λ p, p;
     os_path_splitext_ext := λ _, "";
     fromtimestamp_isoformat := λ _, Some "2024-01-01T00:00:00";
     age_in_days := λ _, Some 0 |}.

(** A machine on which every path is a readable file of 20 MB. *)
Definition nt_all_large : OS :=
  {| os_stat := λ _, Some (mkstat 20971520 1 1);
     os_path_islink := λ _, false;
     os_path_normpath := λ p, p;
     os_path_join := λ d n, d +:+ "\" +:+ n |}.

(** A drive whose root holds the 500 files [f0] ... [f499]. *)
Definition five_hundred_files : listing :=
  ScandirOk
    (map (λ i, FileEntry ("f" +:+ pretty (Z.of_nat i))
                 (Some (mkstat 20971520 1 1)))
       (seq 0 500)).

(** A GUI whose directory cache holds a summary that [dir_cache.json]
    does not have yet. *)
Definition gui_unsaved_dir_cache : DiskMonitorGUI.t :=
  DiskMonitorGUI.set_dir_cache
    {[ "C:\Users_system_True" :=
         {| DirCache.signature := Some "1_1"; DirCache.size := 10;
            DirCache.file_count := 1; DirCache.subdirs := [] |} ]}
    (gui None).

(** [nt_one_file] after [C:\big.iso] was written to again. *)
Definition nt_one_file_touched : OS :=
  system "\" [("C:\big.iso", mkstat 700 43 7)].

(** [posix_keyed] after [/R_system_True] was replaced by a new file. *)
Definition posix_keyed_touched : OS :=
  system "/" [("/R", mkstat 4096 7 10); ("/R_system_True", mkstat 0 9 21)].

(** A directory cache loaded from a [dir_cache.json] whose entry for
    [/R] has no ['signature'] member. *)
Definition unsigned_entry : DirCache.entry :=
  {| DirCache.signature := None; DirCache.size := 77;
     DirCache.file_count := 3; DirCache.subdirs := [] |}.

End Fixtures.

(** ** Cache management *)

(** [del d[k]]: the binding of [k] goes (the keys of a Python dictionary
    are unique). *)
Definition dict_del {V : Type} (d : list (string * V)) (k : string)
  : list (string * V) :=
  filter (λ kv, kv.1 ≠ k) d.

(** [os.path.exists(path)]: whether [os.stat(path)] succeeds. *)
Definition os_path_exists (os : OS) (path : string) : bool :=
  bool_decide (is_Some (os_stat os path)).

(** [_clear_cache], once the user has confirmed: [clear_cache] of both
    cache objects, each of which empties its dictionaries and saves. *)
Definition _clear_cache (self : DiskMonitorGUI.t) : DiskMonitorGUI.t :=
  let self :=
    DiskMonitorGUI.cache_save_cache
      (DiskMonitorGUI.set_cache ScanCache.empty self) in
  DiskMonitorGUI.dir_cache_save_cache (DiskMonitorGUI.set_dir_cache ∅ self).

(** The JSON object that [_export_cache] writes (without its
    [export_time] stamp, which [_import_cache] does not read). *)
Definition _export_cache (self : DiskMonitorGUI.t) : import_blob :=
  {| blob_cache := Some (ScanCache.cache (DiskMonitorGUI.cache self));
     blob_cache_index := Some (ScanCache.cache_index (DiskMonitorGUI.cache self)) |}.

(** The loop of [_clean_expired_cache] over [list(self.cache.cache.keys())]. *)
Fixpoint clean_expired_keys (os : OS) (keys : list string) (c : ScanCache.t)
    (removed : Z) : ScanCache.t * Z :=
  match keys with
  | [] => (c, removed)
  | file_path :: rest =>
      if negb (os_path_exists os file_path)
      then
        clean_expired_keys os rest
          {| ScanCache.cache := dict_del (ScanCache.cache c) file_path;
             ScanCache.cache_index := dict_del (ScanCache.cache_index c) file_path |}
          (removed + 1)
      else clean_expired_keys os rest c removed
  end.

(** [_clean_expired_cache]; the second component is the count shown to
    the user. *)
Definition _clean_expired_cache (os : OS) (self : DiskMonitorGUI.t)
  : DiskMonitorGUI.t * Z :=
  let c := DiskMonitorGUI.cache self in
  let (c, removed) := clean_expired_keys os (ScanCache.cache c).*1 c 0 in
  (DiskMonitorGUI.cache_save_cache (DiskMonitorGUI.set_cache c self), removed).

(** What the deletion loop of [_delete_selected] has done so far. *)
Record deletion : Type := {
  deleted : Z;
  failed : Z;
  total_freed : Z;
  gone : list string;          (* the paths that [os.remove] removed *)
  purged : ScanCache.t;        (* [self.cache] *)
}.

(** The loop of [_delete_selected] over [all_selected]. [os] is the
    machine before the deletions; [remove_ok path] tells whether
    [os.remove(path)] succeeds (otherwise it raises). *)
Fixpoint delete_files (os : OS) (remove_ok : string → bool)
    (all_selected : list string) (d : deletion) : deletion :=
  match all_selected with
  | [] => d
  | file_path :: rest =>
      let still_there :=
        os_path_exists os file_path && bool_decide (file_path ∉ gone d) in
      if still_there
      then
        match os_stat os file_path with
        | Some stat =>
            if remove_ok file_path
            then
              delete_files os remove_ok rest
                {| deleted := deleted d + 1;
                   failed := failed d;
                   total_freed := total_freed d + st_size stat;
                   gone := file_path :: gone d;
                   purged :=
                     {| ScanCache.cache :=
                          dict_del (ScanCache.cache (purged d)) file_path;
                        ScanCache.cache_index :=
                          dict_del (ScanCache.cache_index (purged d)) file_path |} |}
            else
              delete_files os remove_ok rest
                {| deleted := deleted d; failed := failed d + 1;
                   total_freed := total_freed d; gone := gone d;
                   purged := purged d |}
        | None =>
            delete_files os remove_ok rest
              {| deleted := deleted d; failed := failed d + 1;
                 total_freed := total_freed d; gone := gone d;
                 purged := purged d |}
        end
      else delete_files os remove_ok rest d
  end.

(** [_delete_selected] on the selection [all_selected]; [confirm] is the
    answer of the user to the confirmation dialog. Nothing happens on an
    empty selection or without confirmation. *)
Definition _delete_selected (os : OS) (remove_ok : string → bool)
    (confirm : bool) (all_selected : list string) (self : DiskMonitorGUI.t)
  : DiskMonitorGUI.t * deletion :=
  let start :=
    {| deleted := 0; failed := 0; total_freed := 0; gone := [];
       purged := DiskMonitorGUI.cache self |} in
  match all_selected with
  | [] => (self, start)
  | _ :: _ =>
      if negb confirm then (self, start)
      else
        let d := delete_files os remove_ok all_selected start in
        (DiskMonitorGUI.cache_save_cache
           (DiskMonitorGUI.set_cache (purged d) self), d)
  end.

(** [_stop_dir_scan]: the GUI thread clears the flag. *)
Definition _stop_dir_scan (self : DiskMonitorGUI.t) : DiskMonitorGUI.t :=
  DiskMonitorGUI.set_dir_scanning (Some O) self.

(** ** Reference totals *)

(** The files below a directory that a pass under the policy
    [include_system] is meant to count: size and number of the files whose
    [stat] succeeds, in the directory and in every subdirectory that the
    policy does not exclude. *)
Fixpoint tree_entries_total (os : OS) (excl : list string)
    (tree_total : listing → string → Z * Z)
    (dir_path : string) (include_system : bool) (entries : list dirent)
  : Z * Z :=
  match entries with
  | [] => (0, 0)
  | e :: rest =>
      let (size, count) :=
        tree_entries_total os excl tree_total dir_path include_system rest in
      match e with
      | FileEntry _ (Some stat) => (st_size stat + size, 1 + count)
      | DirEntry name sub =>
          let path := os_path_join os dir_path name in
          if negb include_system && _should_exclude os excl path
          then (size, count)
          else
            let (sub_size, sub_count) := tree_total sub path in
            (sub_size + size, sub_count + count)
      | _ => (size, count)
      end
  end.

Fixpoint tree_total (os : OS) (excl : list string) (include_system : bool)
    (dir : listing) (dir_path : string) {struct dir} : Z * Z :=
  match dir with
  | ScandirOk entries =>
      tree_entries_total os excl (tree_total os excl include_system)
        (os_path_normpath os dir_path) include_system entries
  | ScandirPermissionError | ScandirError => (0, 0)
  end.

(** Whether the character [c] is absent from [s]. *)
Fixpoint str_free_of (c : Ascii.ascii) (s : string) : bool :=
  match s with
  | EmptyString => true
  | String c' rest => negb (Ascii.eqb c' c) && str_free_of c rest
  end.

(** A file cache that [update_cache] alone has filled, on machines that
    may have changed between the calls. *)
Inductive built_by_updates : ScanCache.t → Prop :=
| built_empty : built_by_updates ScanCache.empty
| built_update os c file_path file_info :
    built_by_updates c →
    built_by_updates (ScanCache.update_cache os c file_path file_info).

(** ** Notions in which the properties are stated *)

(** Induction on directory trees. *)

Section listing_induction.

Variable P : listing → Prop.
Hypothesis Hperm : P ScandirPermissionError.
Hypothesis Herr : P ScandirError.
Definition subtrees_satisfy (e : dirent) : Prop :=
  match e with DirEntry _ sub => P sub | _ => True end.

Hypothesis Hok :
  ∀ entries, Forall subtrees_satisfy entries → P (ScandirOk entries).

Fixpoint listing_tree_ind (dir : listing) : P dir :=
  match dir with
  | ScandirPermissionError => Hperm
  | ScandirError => Herr
  | ScandirOk entries =>
      Hok entries
        ((fix go (es : list dirent) : Forall subtrees_satisfy es :=
            match es with
            | [] => List.Forall_nil subtrees_satisfy
            | e :: rest =>
                @List.Forall_cons dirent subtrees_satisfy e rest
                  (match e return subtrees_satisfy e with
                   | DirEntry _ sub => listing_tree_ind sub
                   | _ => I
                   end)
                  (go rest)
            end) entries)
  end.

End listing_induction.

(** Two states that hold the same directory cache, in passes that nobody
    stops. *)
Definition same_caches (a b : DiskMonitorGUI.t) : Prop :=
  DiskMonitorGUI.dir_cache a = DiskMonitorGUI.dir_cache b
  ∧ DiskMonitorGUI.dir_scanning a = None
  ∧ DiskMonitorGUI.dir_scanning b = None.

(** What the pass over [dir] and the pass over [accessible dir] have in
    common, from states with the same cache. *)
Definition skips_failures os excl incl (dir : listing) : Prop :=
  ∀ dir_path a b,
    same_caches a b →
    (DiskMonitorGUI._scan_directory_recursive os excl dir dir_path incl a).2
    = (DiskMonitorGUI._scan_directory_recursive os excl (accessible dir)
         dir_path incl b).2
    ∧ same_caches
        (DiskMonitorGUI._scan_directory_recursive os excl dir dir_path incl a).1
        (DiskMonitorGUI._scan_directory_recursive os excl (accessible dir)
           dir_path incl b).1.

(** From [a] to [b], no entry kept under a key of the policy opposite to
    [incl] was written, replaced or removed. *)
Definition other_policy_untouched (incl : bool) (a b : DiskMonitorGUI.t) : Prop :=
  ∀ p, DiskMonitorGUI.dir_cache b !! cache_key p (negb incl)
       = DiskMonitorGUI.dir_cache a !! cache_key p (negb incl).

(** The file scan leaves the directory cache and its file alone. *)
Definition dir_caches_kept (a b : DiskMonitorGUI.t) : Prop :=
  DiskMonitorGUI.dir_cache b = DiskMonitorGUI.dir_cache a
  ∧ DiskMonitorGUI.dir_cache_file b = DiskMonitorGUI.dir_cache_file a.

(** A relation [R] between the state before and the state after holds
    across the pass over [dir] under the policy [incl]. *)
Definition pass_relates (os : OS) (excl : list string) (incl : bool)
    (R : DiskMonitorGUI.t → DiskMonitorGUI.t → Prop) (dir : listing) : Prop :=
  ∀ dir_path s,
    R s (DiskMonitorGUI._scan_directory_recursive os excl dir dir_path incl s).1.

(** Every cached entry carries a signature, as every entry that
    [update_cache] writes does. *)
Definition all_signed (c : DirCache.t) : Prop :=
  ∀ key cached, c !! key = Some cached → DirCache.signature cached ≠ None.

(** The pass over [dir] records nothing and returns the reference totals. *)
Definition recomputes (os : OS) (excl : list string) (incl : bool)
    (dir : listing) : Prop :=
  ∀ dir_path self,
    all_signed (DiskMonitorGUI.dir_cache self) →
    DiskMonitorGUI.dir_scanning self = None →
    let r :=
      DiskMonitorGUI._scan_directory_recursive os excl dir dir_path incl self in
    DiskMonitorGUI.dir_cache r.1 = DiskMonitorGUI.dir_cache self
    ∧ DiskMonitorGUI.dir_scanning r.1 = None
    ∧ (r.2.1.1, r.2.1.2) = tree_total os excl incl dir dir_path
    ∧ 0 ≤ r.2.1.2 ∧ (r.2.1.2 = 0 → r.2.1.1 = 0).

(** The sizes, before the deletions, of the files at [paths]. *)
Definition freed_by (os : OS) (paths : list string) : Z :=
  foldr (λ p acc, default 0 (st_size <$> os_stat os p) + acc) 0 paths.

(** * Properties *)

(** ** Strings *)

Lemma prefix_append (p r : string) : String.prefix p (p +:+ r) = true.
Proof.
  induction p as [|c p IH]; simpl.
  - by destruct r.
  - destruct (Ascii.ascii_dec c c) as [_|Hc]; [exact IH | by destruct Hc].
Qed.

Lemma prefix_inv (p s : string) :
  String.prefix p s = true → ∃ r, s = p +:+ r.
Proof.
  revert s. induction p as [|c p IH]; intros s H.
  - by exists s.
  - destruct s as [|c' s]; simpl in H; [done|].
    destruct (Ascii.ascii_dec c c') as [->|_]; [|done].
    destruct (IH _ H) as [r ->]. by exists r.
Qed.

Lemma append_length (a b : string) :
  String.length (a +:+ b) = (String.length a + String.length b)%nat.
Proof. induction a as [|c a IH]; simpl; [done | by rewrite IH]. Qed.

(** No string is at once a [..._system_True] and a [..._system_False] key. *)
Lemma cache_key_policies_differ (p1 p2 : string) :
  cache_key p1 true ≠ cache_key p2 false.
Proof.
  unfold cache_key; simpl. revert p2.
  induction p1 as [|c p1 IH]; intros p2 H.
  - apply (f_equal String.length) in H.
    rewrite !append_length in H. simpl in H. lia.
  - destruct p2 as [|c2 p2].
    + pose proof (f_equal String.length H) as Hlen.
      simpl in Hlen. rewrite !append_length in Hlen. simpl in Hlen.
      destruct p1; simpl in *; [by inversion H | lia].
    + simpl in H. injection H as _ H. by apply (IH p2).
Qed.

(** ** The file cache ([ScanCache]) *)

Lemma dict_get_set_eq {V} (d : list (string * V)) (k : string) (v : V) :
  dict_get (dict_set d k v) k = Some v.
Proof.
  induction d as [|[k' v'] d IH]; simpl.
  - by rewrite String.eqb_refl.
  - destruct (String.eqb k' k) eqn:E; simpl; by rewrite E.
Qed.

Lemma dict_get_set_ne {V} (d : list (string * V)) (k other : string) (v : V) :
  other ≠ k → dict_get (dict_set d k v) other = dict_get d other.
Proof.
  intros Hne. induction d as [|[k' v'] d IH]; simpl.
  - by destruct (String.eqb_spec k other) as [->|_].
  - destruct (String.eqb_spec k' k) as [->|Hk]; simpl.
    + by destruct (String.eqb_spec k other) as [->|_].
    + by rewrite IH.
Qed.

Lemma get_file_signature_readable os file_path stat :
  os_stat os file_path = Some stat →
  ScanCache.get_file_signature os file_path =
    Some {| ScanCache.size := st_size stat; ScanCache.mtime := st_mtime stat;
            ScanCache.signature :=
              pretty (st_size stat) +:+ "_" +:+ pretty (st_mtime stat) |}.
Proof. intros H. unfold ScanCache.get_file_signature. by rewrite H. Qed.

Lemma get_file_signature_unreadable os file_path :
  os_stat os file_path = None →
  ScanCache.get_file_signature os file_path = None.
Proof. intros H. unfold ScanCache.get_file_signature. by rewrite H. Qed.

(** C5, as the specification words it, fails: on a path that cannot be
    stat'ed, [update_cache] keeps the old entry and drops the new one. *)
Lemma update_cache_keeps_old_entry_when_unreadable :
  dict_get
    (ScanCache.cache
       (ScanCache.update_cache Fixtures.nt_empty Fixtures.cache_with_gone
          "C:\gone.bin" Fixtures.new_info)) "C:\gone.bin"
  = Some Fixtures.old_info
  ∧ Fixtures.old_info ≠ Fixtures.new_info.
Proof. split; [reflexivity | discriminate]. Qed.

(** C5 (amended): when the live metadata of [file_path] can be read,
    [ScanCache.update_cache] replaces the entry and the index signature of
    that path, whatever the cache held before, and touches no other path;
    when it cannot be read, the cache is returned unchanged. *)
Theorem update_cache_replaces_iff_readable
    (os : OS) (self : ScanCache.t) (file_path : string) (file_info : pyval) :
  let self' := ScanCache.update_cache os self file_path file_info in
  (∀ stat, os_stat os file_path = Some stat →
     dict_get (ScanCache.cache self') file_path = Some file_info
     ∧ (ScanCache.signature_dict <$> ScanCache.get_file_signature os file_path)
       = dict_get (ScanCache.cache_index self') file_path
     ∧ ∀ other, other ≠ file_path →
         dict_get (ScanCache.cache self') other
         = dict_get (ScanCache.cache self) other
         ∧ dict_get (ScanCache.cache_index self') other
           = dict_get (ScanCache.cache_index self) other)
  ∧ (os_stat os file_path = None → self' = self).
Proof.
  intros self'. subst self'. unfold ScanCache.update_cache. split.
  - intros stat Hstat. rewrite (get_file_signature_readable _ _ _ Hstat). simpl.
    rewrite !dict_get_set_eq. repeat split; try done.
    all: by apply dict_get_set_ne.
  - intros Hstat. by rewrite (get_file_signature_unreadable _ _ Hstat).
Qed.

Lemma update_cache_replaces_iff_readable_witness :
  dict_get
    (ScanCache.cache
       (ScanCache.update_cache Fixtures.nt_one_file Fixtures.cache_with_gone
          "C:\big.iso" Fixtures.new_info)) "C:\big.iso"
  = Some Fixtures.new_info
  ∧ ScanCache.update_cache Fixtures.nt_empty Fixtures.cache_with_gone
      "C:\gone.bin" Fixtures.new_info
    = Fixtures.cache_with_gone.
Proof.
  split.
  - refine (proj1 (proj1 (update_cache_replaces_iff_readable
      Fixtures.nt_one_file Fixtures.cache_with_gone "C:\big.iso"
      Fixtures.new_info) (Fixtures.mkstat 700 42 7) _)).
    reflexivity.
  - refine (proj2 (update_cache_replaces_iff_readable
      Fixtures.nt_empty Fixtures.cache_with_gone "C:\gone.bin"
      Fixtures.new_info) _).
    reflexivity.
Defined.

(** C6: on a path whose metadata cannot be read, [get_file_signature]
    returns no signature and [ScanCache.is_cached] returns normally (no
    exception) with the invalid result [(False, None)], whatever the cache
    and its index hold for that path. *)
Theorem unreadable_path_is_a_miss
    (os : OS) (self : ScanCache.t) (file_path : string) :
  os_stat os file_path = None →
  ScanCache.get_file_signature os file_path = None
  ∧ ScanCache.is_cached os self file_path = Ok (false, PNone).
Proof.
  intros H. unfold ScanCache.is_cached.
  by rewrite (get_file_signature_unreadable _ _ H).
Qed.

Lemma unreadable_path_is_a_miss_witness :
  ScanCache.get_file_signature Fixtures.nt_empty "C:\gone.bin" = None
  ∧ ScanCache.is_cached Fixtures.nt_empty Fixtures.cache_with_odd_index
      "C:\gone.bin" = Ok (false, PNone).
Proof.
  apply (unreadable_path_is_a_miss Fixtures.nt_empty
           Fixtures.cache_with_odd_index "C:\gone.bin").
  reflexivity.
Defined.

(** C9: a path that the imported index knows under its live signature,
    but that the imported cache does not hold, is reported by
    [ScanCache.is_cached] as valid with no entry: [(True, None)]. *)
Theorem is_cached_valid_without_entry
    (os : OS) (data : import_blob) (gui : DiskMonitorGUI.t)
    (file_path : string) (stat : stat_result)
    (index cached_sig : list (string * pyval)) :
  os_stat os file_path = Some stat →
  blob_cache_index data = Some index →
  dict_get index file_path = Some (PDict cached_sig) →
  dict_get cached_sig "signature"
    = Some (PStr (pretty (st_size stat) +:+ "_" +:+ pretty (st_mtime stat))) →
  dict_get (default [] (blob_cache data)) file_path = None →
  ScanCache.is_cached os (DiskMonitorGUI.cache (_import_cache data gui)) file_path
  = Ok (true, PNone).
Proof.
  intros Hstat Hindex Hpath Hsig Hcache.
  unfold ScanCache.is_cached, _import_cache. simpl.
  rewrite (get_file_signature_readable _ _ _ Hstat), Hindex. simpl.
  rewrite Hpath, Hcache. simpl.
  destruct cached_sig as [|kv rest]; [done|].
  cbn [py_truthy negb]. rewrite Hsig. simpl.
  by rewrite String.eqb_refl.
Qed.

Lemma is_cached_valid_without_entry_witness :
  ScanCache.is_cached Fixtures.nt_one_file
    (DiskMonitorGUI.cache
       (_import_cache Fixtures.index_only_blob (Fixtures.gui None)))
    "C:\big.iso"
  = Ok (true, PNone).
Proof.
  by eapply (is_cached_valid_without_entry Fixtures.nt_one_file
               Fixtures.index_only_blob (Fixtures.gui None) "C:\big.iso"
               (Fixtures.mkstat 700 42 7)).
Defined.

(** ** Exclusion by string prefix *)

(** C10: [_should_exclude] answers [True] for every path whose normalised
    string begins with the normalised string of a configured excluded
    directory, whether or not the path lies inside that directory: the
    sibling [C:\Windows Updates] of the excluded [C:\Windows] is excluded. *)
Theorem should_exclude_by_string_prefix
    (os : OS) (excl : list string) (path exclude rest : string) :
  exclude ∈ excl →
  os_path_normpath os path = os_path_normpath os exclude +:+ rest →
  _should_exclude os excl path = true.
Proof.
  intros Hin Hpath. unfold _should_exclude.
  apply existsb_exists. exists exclude. split.
  - by apply list_elem_of_In.
  - rewrite Hpath. apply prefix_append.
Qed.

Lemma should_exclude_by_string_prefix_witness :
  _should_exclude Fixtures.nt_empty exclude_dirs "C:\Windows Updates" = true.
Proof.
  apply (should_exclude_by_string_prefix Fixtures.nt_empty exclude_dirs
           "C:\Windows Updates" "C:\Windows" " Updates").
  - apply list_elem_of_here.
  - reflexivity.
Defined.

(** ** The directory pass: aggregates *)

Lemma dict_set_fresh {V} (d : list (string * V)) (k : string) (v : V) :
  k ∉ d.*1 → dict_set d k v = d ++ [(k, v)].
Proof.
  induction d as [|[k' v'] d IH]; intros Hk; simpl; [done|].
  rewrite fmap_cons in Hk. apply not_elem_of_cons in Hk as [Hne Hk].
  destruct (String.eqb_spec k' k) as [->|_]; [done|].
  by rewrite IH.
Qed.

Lemma sum_sizes_snoc subdirs name s :
  sum_sizes (subdirs ++ [(name, s)]) = sum_sizes subdirs + summary_size s.
Proof.
  unfold sum_sizes. induction subdirs as [|kv d IH]; simpl; [lia|].
  rewrite IH. lia.
Qed.

Lemma sum_file_counts_snoc subdirs name s :
  sum_file_counts (subdirs ++ [(name, s)])
  = sum_file_counts subdirs + summary_file_count s.
Proof.
  unfold sum_file_counts. induction subdirs as [|kv d IH]; simpl; [lia|].
  rewrite IH. lia.
Qed.

Lemma direct_files_cons e entries :
  direct_files (e :: entries) = direct_files [e] ++ direct_files entries.
Proof. by destruct e as [? [?|]| | |]. Qed.

Lemma direct_size_cons e entries :
  direct_size (e :: entries) = direct_size [e] + direct_size entries.
Proof.
  unfold direct_size. rewrite direct_files_cons, foldr_app.
  generalize (direct_files entries). intros l.
  induction (direct_files [e]) as [|s k IH]; simpl; lia.
Qed.

Lemma direct_count_cons e entries :
  direct_count (e :: entries) = direct_count [e] + direct_count entries.
Proof.
  unfold direct_count. rewrite direct_files_cons, length_app. lia.
Qed.

(** The loop keeps [total - Σ subdirs] equal to the size of the files it
    has counted directly, and likewise for the file count. *)
Lemma scan_entries_aggregate os excl recurse dir_path incl entries :
  ∀ ts fc sd self self' completed ts' fc' sd',
    NoDup (entry_name <$> entries) →
    (∀ e, e ∈ entries → entry_name e ∉ sd.*1) →
    DiskMonitorGUI.scan_entries os excl recurse dir_path incl entries
      ts fc sd self = (self', (completed, (ts', fc', sd'))) →
    ∃ visited,
      visited `prefix_of` entries
      ∧ (completed = true ↔ visited = entries)
      ∧ ts' - sum_sizes sd' = ts - sum_sizes sd + direct_size visited
      ∧ fc' - sum_file_counts sd'
        = fc - sum_file_counts sd + direct_count visited.
Proof.
  induction entries as [|e rest IH]; intros ts fc sd self self' completed
    ts' fc' sd' Hnodup Hfresh Hrun.
  - simpl in Hrun. simplify_eq. exists []. repeat split; try done.
    all: unfold direct_size, direct_count; simpl; lia.
  - rewrite fmap_cons in Hnodup. apply NoDup_cons in Hnodup as [Hname Hnodup].
    assert (Hfresh_rest : ∀ e', e' ∈ rest → entry_name e' ∉ sd.*1)
      by (intros e' He'; apply Hfresh; by right).
    assert (Hstep : ∀ ts1 fc1 sd1 self1,
      (∀ e', e' ∈ rest → entry_name e' ∉ sd1.*1) →
      DiskMonitorGUI.scan_entries os excl recurse dir_path incl rest
        ts1 fc1 sd1 self1 = (self', (completed, (ts', fc', sd'))) →
      ∀ dsize dcount,
        direct_size [e] = dsize → direct_count [e] = dcount →
        ts1 - sum_sizes sd1 = ts - sum_sizes sd + dsize →
        fc1 - sum_file_counts sd1 = fc - sum_file_counts sd + dcount →
        ∃ visited,
          visited `prefix_of` e :: rest
          ∧ (completed = true ↔ visited = e :: rest)
          ∧ ts' - sum_sizes sd' = ts - sum_sizes sd + direct_size visited
          ∧ fc' - sum_file_counts sd'
            = fc - sum_file_counts sd + direct_count visited).
    { intros ts1 fc1 sd1 self1 Hfresh1 Hrun1 dsize dcount Hds Hdc Hts Hfc.
      destruct (IH _ _ _ _ _ _ _ _ _ Hnodup Hfresh1 Hrun1)
        as (visited & Hpre & Hdone & Hts' & Hfc').
      exists (e :: visited). split; [by apply prefix_cons|].
      split; [rewrite Hdone; split; [by intros ->|by intros [=]]|].
      rewrite direct_size_cons, direct_count_cons. lia. }
    simpl in Hrun.
    destruct (DiskMonitorGUI.read_dir_scanning self) as [running self0].
    destruct running; simpl in Hrun.
    2:{ simplify_eq. exists []. split; [apply prefix_nil|].
        split; [split; [done|intros [=]]|].
        unfold direct_size, direct_count; simpl; lia. }
    destruct e as [name [stat|]|name sub|name|name].
    + eapply Hstep; [exact Hfresh_rest|exact Hrun|reflexivity..| |];
        unfold direct_size, direct_count; simpl; lia.
    + eapply Hstep; [exact Hfresh_rest|exact Hrun|reflexivity..| |];
        unfold direct_size, direct_count; simpl; lia.
    + destruct (negb incl && _should_exclude os excl (os_path_join os dir_path name)).
      { eapply Hstep; [exact Hfresh_rest|exact Hrun|reflexivity..| |];
          unfold direct_size, direct_count; simpl; lia. }
      destruct (recurse sub (os_path_join os dir_path name) incl self0)
        as [self1 [[sub_size sub_count] sub_subdirs]].
      destruct ((0 <? sub_size) || (0 <? sub_count)).
      2:{ eapply Hstep; [exact Hfresh_rest|exact Hrun|reflexivity..| |];
          unfold direct_size, direct_count; simpl; lia. }
      assert (Hname_sd : name ∉ sd.*1) by (apply (Hfresh (DirEntry name sub)); by left).
      rewrite (dict_set_fresh _ _ _ Hname_sd) in Hrun.
      eapply Hstep; [|exact Hrun|reflexivity..| |].
      * intros e' He'. rewrite fmap_app. simpl.
        intros [Hin|Hin]%elem_of_app.
        -- by apply (Hfresh_rest e').
        -- apply list_elem_of_singleton in Hin. apply Hname. simpl.
           rewrite <- Hin. by apply list_elem_of_fmap_2.
      * rewrite sum_sizes_snoc. unfold direct_size; simpl. lia.
      * rewrite sum_file_counts_snoc. unfold direct_count; simpl. lia.
    + eapply Hstep; [exact Hfresh_rest|exact Hrun|reflexivity..| |];
        unfold direct_size, direct_count; simpl; lia.
    + eapply Hstep; [exact Hfresh_rest|exact Hrun|reflexivity..| |];
        unfold direct_size, direct_count; simpl; lia.
Qed.

Lemma scan_directory_recursive_unfold os excl dir dir_path incl self :
  DiskMonitorGUI._scan_directory_recursive os excl dir dir_path incl self
  = let dir_path := os_path_normpath os dir_path in
    let key := cache_key dir_path incl in
    match DirCache.is_cached os (DiskMonitorGUI.dir_cache self) key with
    | (true, Some cached_data) =>
        (self, (DirCache.size cached_data, DirCache.file_count cached_data,
                DirCache.subdirs cached_data))
    | _ =>
        let self := DiskMonitorGUI.record_call (Scandir dir_path) self in
        match dir with
        | ScandirOk entries =>
            let '(self, (completed, (total_size, file_count, subdirs))) :=
              DiskMonitorGUI.scan_entries os excl
                (DiskMonitorGUI._scan_directory_recursive os excl)
                dir_path incl entries 0 0 [] self in
            if completed
            then
              (DiskMonitorGUI.set_dir_cache
                 (DirCache.update_cache os (DiskMonitorGUI.dir_cache self) key
                    total_size file_count subdirs) self,
               (total_size, file_count, subdirs))
            else (self, (total_size, file_count, subdirs))
        | ScandirPermissionError | ScandirError =>
            (DiskMonitorGUI.set_dir_cache
               (DirCache.update_cache os (DiskMonitorGUI.dir_cache self) key
                  0 0 []) self,
             (0, 0, []))
        end
    end.
Proof. by destruct dir. Qed.

Lemma update_cache_lookup os c key size count subdirs sig :
  DirCache.get_dir_signature os key = Some sig →
  DirCache.update_cache os c key size count subdirs !! key
  = Some {| DirCache.signature := Some sig; DirCache.size := size;
            DirCache.file_count := count; DirCache.subdirs := subdirs |}.
Proof.
  intros Hsig. unfold DirCache.update_cache. rewrite Hsig.
  apply lookup_insert_eq.
Qed.

(** C3: a summary that [_scan_directory_recursive] computes (on a cache
    miss) has a total size equal to the sizes of the files counted directly
    in the directory plus the ['size'] fields of its [subdirs] dictionary,
    and a file count equal to the number of those files plus the
    ['file_count'] fields of [subdirs]; when the visit runs to its end, the
    entry it stores with [DirCache.update_cache] is that same summary, over
    all the entries of the directory. *)
Theorem aggregate_invariant
    (os : OS) (excl : list string) (dir : listing) (dir_path : string)
    (include_system : bool) (self self' : DiskMonitorGUI.t)
    (total_size file_count : Z) (subdirs : list (string * summary)) :
  let key := cache_key (os_path_normpath os dir_path) include_system in
  NoDup (entry_name <$> listing_entries dir) →
  DirCache.is_cached os (DiskMonitorGUI.dir_cache self) key = (false, None) →
  DiskMonitorGUI._scan_directory_recursive os excl dir dir_path
    include_system self = (self', (total_size, file_count, subdirs)) →
  ∃ visited,
    visited `prefix_of` listing_entries dir
    ∧ total_size = direct_size visited + sum_sizes subdirs
    ∧ file_count = direct_count visited + sum_file_counts subdirs
    ∧ (visited = listing_entries dir →
       ∀ sig, DirCache.get_dir_signature os key = Some sig →
         DiskMonitorGUI.dir_cache self' !! key
         = Some {| DirCache.signature := Some sig;
                   DirCache.size := total_size;
                   DirCache.file_count := file_count;
                   DirCache.subdirs := subdirs |}).
Proof.
  intros key Hnodup Hmiss Hrun.
  rewrite scan_directory_recursive_unfold in Hrun. cbv zeta in Hrun.
  fold key in Hrun. rewrite Hmiss in Hrun.
  destruct dir as [| |entries]; simpl in Hnodup |- *.
  1,2: simplify_eq; exists []; repeat split; try done;
       intros _ sig Hsig; simpl; by apply update_cache_lookup.
  destruct (DiskMonitorGUI.scan_entries _ _ _ _ _ _ _ _ _ _)
    as [mid [completed [[ts fc] sd]]] eqn:Hloop.
  apply scan_entries_aggregate in Hloop as (visited & Hpre & Hdone & Hts & Hfc);
    [|done|intros ? _; simpl; apply not_elem_of_nil].
  exists visited.
  change (sum_sizes []) with 0 in Hts.
  change (sum_file_counts []) with 0 in Hfc.
  destruct completed; simplify_eq.
  - repeat split; [done|lia|lia|].
    intros _ sig Hsig. simpl. by apply update_cache_lookup.
  - repeat split; [done|lia|lia|].
    intros Hall. by apply Hdone in Hall.
Qed.

Lemma aggregate_invariant_witness :
  ∃ visited,
    visited `prefix_of` listing_entries Fixtures.tree_R
    ∧ 3000 = direct_size visited + sum_sizes [("S", Summary 2000 1 [])]
    ∧ 2 = direct_count visited + sum_file_counts [("S", Summary 2000 1 [])].
Proof.
  destruct (aggregate_invariant Fixtures.posix_R exclude_dirs Fixtures.tree_R
              "/R" true (Fixtures.gui None)
              (DiskMonitorGUI._scan_directory_recursive Fixtures.posix_R
                 exclude_dirs Fixtures.tree_R "/R" true (Fixtures.gui None)).1
              3000 2 [("S", Summary 2000 1 [])])
    as (visited & Hpre & Hsize & Hcount & _).
  - simpl. apply NoDup_cons. split; [|apply NoDup_singleton].
    intros [=]%list_elem_of_singleton.
  - reflexivity.
  - reflexivity.
  - exists visited. by repeat split.
Defined.


(** ** The directory pass: entries that fail *)

Lemma read_dir_scanning_unstopped self :
  DiskMonitorGUI.dir_scanning self = None →
  DiskMonitorGUI.read_dir_scanning self
  = (true, DiskMonitorGUI.set_dir_scanning None self).
Proof. intros H. unfold DiskMonitorGUI.read_dir_scanning. by rewrite H. Qed.

Lemma same_caches_read_l a b :
  same_caches a b → same_caches (DiskMonitorGUI.set_dir_scanning None a) b.
Proof. by intros (? & ? & ?). Qed.

Lemma same_caches_read a b :
  same_caches a b →
  same_caches (DiskMonitorGUI.set_dir_scanning None a)
              (DiskMonitorGUI.set_dir_scanning None b).
Proof. by intros (? & ? & ?). Qed.

Lemma same_caches_call_l c a b :
  same_caches a b → same_caches (DiskMonitorGUI.record_call c a) b.
Proof. by intros (? & ? & ?). Qed.

Lemma same_caches_call c c' a b :
  same_caches a b →
  same_caches (DiskMonitorGUI.record_call c a) (DiskMonitorGUI.record_call c' b).
Proof. by intros (? & ? & ?). Qed.

Lemma same_caches_update os key size count subdirs a b :
  same_caches a b →
  same_caches
    (DiskMonitorGUI.set_dir_cache
       (DirCache.update_cache os (DiskMonitorGUI.dir_cache a) key size count subdirs) a)
    (DiskMonitorGUI.set_dir_cache
       (DirCache.update_cache os (DiskMonitorGUI.dir_cache b) key size count subdirs) b).
Proof. intros (Hc & ? & ?). repeat split; simpl; by rewrite ?Hc. Qed.

Lemma scan_entries_skips_failures os excl incl dir_path entries :
  Forall (subtrees_satisfy (skips_failures os excl incl)) entries →
  ∀ ts fc sd a b,
    same_caches a b →
    (DiskMonitorGUI.scan_entries os excl
       (DiskMonitorGUI._scan_directory_recursive os excl)
       dir_path incl entries ts fc sd a).2
    = (DiskMonitorGUI.scan_entries os excl
         (DiskMonitorGUI._scan_directory_recursive os excl)
         dir_path incl (accessible_entries accessible entries) ts fc sd b).2
    ∧ same_caches
        (DiskMonitorGUI.scan_entries os excl
           (DiskMonitorGUI._scan_directory_recursive os excl)
           dir_path incl entries ts fc sd a).1
        (DiskMonitorGUI.scan_entries os excl
           (DiskMonitorGUI._scan_directory_recursive os excl)
           dir_path incl (accessible_entries accessible entries) ts fc sd b).1.
Proof.
  induction 1 as [|e rest He _ IH]; intros ts fc sd a b Hab; [done|].
  pose proof Hab as (_ & Ha & Hb).
  destruct e as [name [stat|]|name sub|name|name];
    cbn [accessible_entries entry_fails DiskMonitorGUI.scan_entries];
    rewrite ?(read_dir_scanning_unstopped a Ha),
            ?(read_dir_scanning_unstopped b Hb); cbn [negb].
  - apply IH. by apply same_caches_call, same_caches_read.
  - apply IH. by apply same_caches_call_l, same_caches_read_l.
  - destruct (negb incl && _should_exclude os excl (os_path_join os dir_path name)).
    { apply IH. by apply same_caches_read. }
    destruct (He (os_path_join os dir_path name)
                (DiskMonitorGUI.set_dir_scanning None a)
                (DiskMonitorGUI.set_dir_scanning None b)
                (same_caches_read _ _ Hab)) as [Hres Hst].
    destruct (DiskMonitorGUI._scan_directory_recursive os excl sub _ incl _)
      as [a1 [[sa ca] da]].
    destruct (DiskMonitorGUI._scan_directory_recursive os excl (accessible sub) _ incl _)
      as [b1 [[sb cb] db]].
    simpl in Hres, Hst. simplify_eq.
    destruct ((0 <? sb) || (0 <? cb)); by apply IH.
  - apply IH. by apply same_caches_read.
  - apply IH. by apply same_caches_read_l.
Qed.

Lemma scan_directory_recursive_skips_failures os excl incl dir :
  skips_failures os excl incl dir.
Proof.
  induction dir as [| |entries IH] using listing_tree_ind;
    intros dir_path a b Hab; pose proof Hab as (Hc & _ & _);
    rewrite !scan_directory_recursive_unfold; cbv zeta; rewrite Hc;
    set (a0 := DiskMonitorGUI.record_call (Scandir (os_path_normpath os dir_path)) a);
    set (b0 := DiskMonitorGUI.record_call (Scandir (os_path_normpath os dir_path)) b);
    assert (Hab0 : same_caches a0 b0) by (by apply same_caches_call).
  1,2: destruct (DirCache.is_cached os _ _) as [[|] [cached|]];
       cbn [fst snd]; try (by split);
       (split; [done|by apply (same_caches_update os _ _ _ _ a0 b0)]).
  cbn [accessible].
  assert (Hloop := scan_entries_skips_failures os excl incl
            (os_path_normpath os dir_path) entries IH 0 0 [] a0 b0 Hab0).
  destruct (DirCache.is_cached os _ _) as [[|] [cached|]];
    cbn [fst snd]; try (by split).
  all: destruct (DiskMonitorGUI.scan_entries _ _ _ _ _ entries _ _ _ _)
         as [a1 [completed [[ts fc] sd]]];
       destruct (DiskMonitorGUI.scan_entries _ _ _ _ _ (accessible_entries _ _) _ _ _ _)
         as [b1 [completed' [[ts' fc'] sd']]];
       destruct Hloop as [Hres Hst]; cbn [fst snd] in Hres, Hst; simplify_eq;
       destruct completed'; cbn [fst snd]; split; try done;
       by apply (same_caches_update os _ _ _ _ a1 b1).
Qed.

(** C4, as the specification words it, fails: the pass over a directory
    with a file whose [stat] is refused and an entry that vanished reports
    and caches exactly what the pass over the same directory without those
    two entries does, status included. *)
Lemma unreadable_entries_leave_no_mark :
  let partial :=
    DiskMonitorGUI._scan_directory Fixtures.posix_keyed exclude_dirs
      Fixtures.tree_unreadable "/R" "" (Fixtures.gui None) in
  let clean :=
    DiskMonitorGUI._scan_directory Fixtures.posix_keyed exclude_dirs
      Fixtures.tree_readable "/R" "" (Fixtures.gui None) in
  existsb entry_fails (listing_entries Fixtures.tree_unreadable) = true
  ∧ existsb entry_fails (listing_entries Fixtures.tree_readable) = false
  ∧ partial.2 = clean.2
  ∧ DiskMonitorGUI.report_status <$> partial.2 = Some StatusScanned
  ∧ DiskMonitorGUI.dir_cache partial.1 = DiskMonitorGUI.dir_cache clean.1
  ∧ DiskMonitorGUI.dir_cache partial.1 !! "/R_system_True"
    = Some {| DirCache.signature := Some "9_20"; DirCache.size := 1000;
              DirCache.file_count := 1; DirCache.subdirs := [] |}.
Proof. vm_compute. by repeat split. Qed.

(** C4 (amended): in a pass that nobody stops, the entries of a directory
    that fail with a permission or I/O error are skipped and the traversal
    continues; the summary returned and every summary cached are computed
    from the accessible entries only, and are the very ones that the pass
    produces on the tree without its failing entries (no status field
    tells them apart). *)
Theorem failing_entries_skipped_silently
    (os : OS) (excl : list string) (dir : listing) (dir_path : string)
    (include_system : bool) (self : DiskMonitorGUI.t) :
  DiskMonitorGUI.dir_scanning self = None →
  let whole :=
    DiskMonitorGUI._scan_directory_recursive os excl dir dir_path
      include_system self in
  let clean :=
    DiskMonitorGUI._scan_directory_recursive os excl (accessible dir) dir_path
      include_system self in
  whole.2 = clean.2
  ∧ DiskMonitorGUI.dir_cache whole.1 = DiskMonitorGUI.dir_cache clean.1.
Proof.
  intros Hflag whole clean.
  destruct (scan_directory_recursive_skips_failures os excl include_system dir
              dir_path self self) as [Hres (Hcache & _ & _)]; by repeat split.
Qed.

Lemma failing_entries_skipped_silently_witness :
  (DiskMonitorGUI._scan_directory_recursive Fixtures.posix_keyed exclude_dirs
     Fixtures.tree_unreadable "/R" true (Fixtures.gui None)).2
  = (DiskMonitorGUI._scan_directory_recursive Fixtures.posix_keyed exclude_dirs
       (accessible Fixtures.tree_unreadable) "/R" true (Fixtures.gui None)).2
  ∧ DiskMonitorGUI.dir_cache
      (DiskMonitorGUI._scan_directory_recursive Fixtures.posix_keyed exclude_dirs
         Fixtures.tree_unreadable "/R" true (Fixtures.gui None)).1
    = DiskMonitorGUI.dir_cache
        (DiskMonitorGUI._scan_directory_recursive Fixtures.posix_keyed
           exclude_dirs (accessible Fixtures.tree_unreadable) "/R" true
           (Fixtures.gui None)).1.
Proof.
  apply (failing_entries_skipped_silently Fixtures.posix_keyed exclude_dirs
           Fixtures.tree_unreadable "/R" true (Fixtures.gui None)).
  reflexivity.
Defined.

(** ** The directory pass: reuse and cancellation *)

(** A key that names no path of the machine is never recorded. *)
Lemma update_cache_unreadable_key os c key size count subdirs :
  os_stat os key = None →
  DirCache.update_cache os c key size count subdirs = c.
Proof.
  intros H. unfold DirCache.update_cache, DirCache.get_dir_signature.
  by rewrite H.
Qed.

(** C1, on the example of the specification: [DirCache] takes the
    signature of the cache key, [/R_system_True], which names no path, so
    the first complete pass over [/R] records nothing, the lookup of the
    second pass misses, and the second pass enumerates and stats the
    unchanged tree all over again. *)
Theorem unchanged_tree_is_scanned_again :
  let first :=
    DiskMonitorGUI._scan_directory Fixtures.posix_R exclude_dirs
      Fixtures.tree_R "/R" ""
      (DiskMonitorGUI._start_dir_scan None (Fixtures.gui None)) in
  let second :=
    DiskMonitorGUI._scan_directory Fixtures.posix_R exclude_dirs
      Fixtures.tree_R "/R" "" (DiskMonitorGUI._start_dir_scan None first.1) in
  let calls :=
    [Scandir "/R"; EntryStat "/R/a"; Scandir "/R/S"; EntryStat "/R/S/b"] in
  DiskMonitorGUI.report_size <$> first.2 = Some 3000
  ∧ DiskMonitorGUI.dir_cache first.1 = ∅
  ∧ DirCache.is_cached Fixtures.posix_R (DiskMonitorGUI.dir_cache first.1)
      (cache_key "/R" true) = (false, None)
  ∧ DiskMonitorGUI.oscalls first.1 = calls
  ∧ DiskMonitorGUI.oscalls second.1 = calls ++ calls
  ∧ DiskMonitorGUI.report_status <$> second.2 = Some StatusScanned.
Proof. vm_compute. by repeat split. Qed.

(** C2, on a directory [/R] whose last entry is the directory [S], on a
    machine where both cache keys can be signed: the flag is cleared while
    [S] is being enumerated; [S] returns its partial totals without caching
    them, but [/R], whose loop has no entry left at which to look at the
    flag, caches, saves and reports the partial total 2000 as its own (the
    complete total is 5000); the next pass is served that summary from the
    cache. *)
Theorem stop_in_last_child_caches_partial_parent :
  let full :=
    DiskMonitorGUI._scan_directory Fixtures.posix_keyed exclude_dirs
      Fixtures.tree_last_child "/R" ""
      (DiskMonitorGUI._start_dir_scan None (Fixtures.gui None)) in
  let stopped :=
    DiskMonitorGUI._scan_directory Fixtures.posix_keyed exclude_dirs
      Fixtures.tree_last_child "/R" ""
      (DiskMonitorGUI._start_dir_scan (Some 4%nat) (Fixtures.gui None)) in
  let again :=
    DiskMonitorGUI._scan_directory Fixtures.posix_keyed exclude_dirs
      Fixtures.tree_last_child "/R" ""
      (DiskMonitorGUI._start_dir_scan None stopped.1) in
  let partial :=
    {| DirCache.signature := Some "9_20"; DirCache.size := 2000;
       DirCache.file_count := 2;
       DirCache.subdirs := [("S", Summary 2000 1 [])] |} in
  DiskMonitorGUI.report_size <$> full.2 = Some 5000
  ∧ DirCache.size <$> DiskMonitorGUI.dir_cache full.1 !! cache_key "/R/S" true
    = Some 5000
  ∧ DiskMonitorGUI.oscalls stopped.1
    = [Scandir "/R"; EntryStat "/R/S_system_True"; Scandir "/R/S";
       EntryStat "/R/S/b1"]
  ∧ DiskMonitorGUI.dir_cache stopped.1 !! cache_key "/R/S" true = None
  ∧ DiskMonitorGUI.dir_cache stopped.1 !! cache_key "/R" true = Some partial
  ∧ DiskMonitorGUI.dir_cache_file stopped.1 !! cache_key "/R" true = Some partial
  ∧ DiskMonitorGUI.report_size <$> stopped.2 = Some 2000
  ∧ DiskMonitorGUI.report_status <$> stopped.2 = Some StatusScanned
  ∧ DiskMonitorGUI.report_size <$> again.2 = Some 2000
  ∧ DiskMonitorGUI.report_status <$> again.2 = Some StatusCached.
Proof. vm_compute. by repeat split. Qed.

(** ** The directory pass: policies *)

Lemma cache_key_other_policy (p q : string) (b : bool) :
  cache_key p b ≠ cache_key q (negb b).
Proof.
  destruct b; simpl.
  - apply cache_key_policies_differ.
  - intros H. by apply (cache_key_policies_differ q p).
Qed.

Lemma other_policy_untouched_refl incl a : other_policy_untouched incl a a.
Proof. done. Qed.

Lemma other_policy_untouched_trans incl a b c :
  other_policy_untouched incl a b → other_policy_untouched incl b c →
  other_policy_untouched incl a c.
Proof. intros Hab Hbc p. by rewrite Hbc, Hab. Qed.

Lemma other_policy_untouched_same incl a b :
  DiskMonitorGUI.dir_cache b = DiskMonitorGUI.dir_cache a →
  other_policy_untouched incl a b.
Proof. intros H p. by rewrite H. Qed.

Lemma other_policy_untouched_update os incl q size count subdirs a :
  other_policy_untouched incl a
    (DiskMonitorGUI.set_dir_cache
       (DirCache.update_cache os (DiskMonitorGUI.dir_cache a)
          (cache_key q incl) size count subdirs) a).
Proof.
  intros p. simpl. unfold DirCache.update_cache.
  destruct (DirCache.get_dir_signature os _); [|done].
  apply lookup_insert_ne, cache_key_other_policy.
Qed.

Lemma all_subtrees_satisfy (P : listing → Prop) :
  (∀ dir, P dir) → ∀ entries, Forall (subtrees_satisfy P) entries.
Proof.
  intros HP entries. apply Forall_forall. intros e _.
  destruct e; simpl; auto.
Qed.

(** A relation between the state before and the state after, which every
    elementary step of a directory pass under the policy [incl] respects,
    holds across the whole pass. *)
Section pass_relation.

Context (os : OS) (excl : list string) (incl : bool).
Context (R : DiskMonitorGUI.t → DiskMonitorGUI.t → Prop).
Hypothesis R_refl : ∀ s, R s s.
Hypothesis R_trans : ∀ a b c, R a b → R b c → R a c.
Hypothesis R_flag : ∀ s f, R s (DiskMonitorGUI.set_dir_scanning f s).
Hypothesis R_call : ∀ s c, R s (DiskMonitorGUI.record_call c s).
Hypothesis R_update :
  ∀ s q size count subdirs,
    R s (DiskMonitorGUI.set_dir_cache
           (DirCache.update_cache os (DiskMonitorGUI.dir_cache s)
              (cache_key q incl) size count subdirs) s).

Lemma read_dir_scanning_relates s : R s (DiskMonitorGUI.read_dir_scanning s).2.
Proof.
  unfold DiskMonitorGUI.read_dir_scanning.
  destruct (flag_read (DiskMonitorGUI.dir_scanning s)). apply R_flag.
Qed.

Lemma scan_entries_relates dir_path entries :
  Forall (subtrees_satisfy (pass_relates os excl incl R)) entries →
  ∀ ts fc sd s,
    R s (DiskMonitorGUI.scan_entries os excl
           (DiskMonitorGUI._scan_directory_recursive os excl)
           dir_path incl entries ts fc sd s).1.
Proof.
  induction 1 as [|e rest He _ IH]; intros ts fc sd s; [apply R_refl|].
  cbn [DiskMonitorGUI.scan_entries].
  pose proof (read_dir_scanning_relates s) as Hread.
  destruct (DiskMonitorGUI.read_dir_scanning s) as [running s0].
  simpl in Hread.
  destruct running; cbn [negb]; [|done].
  apply (R_trans _ s0); [done|].
  destruct e as [name [stat|]|name sub|name|name]; try apply IH.
  1,2: eapply R_trans; [apply R_call|apply IH].
  destruct (negb incl && _should_exclude os excl (os_path_join os dir_path name));
    [apply IH|].
  specialize (He (os_path_join os dir_path name) s0).
  destruct (DiskMonitorGUI._scan_directory_recursive os excl sub _ incl s0)
    as [s1 [[sub_size sub_count] sub_subdirs]].
  simpl in He. apply (R_trans _ s1); [done|].
  destruct ((0 <? sub_size) || (0 <? sub_count)); apply IH.
Qed.

Lemma scan_directory_recursive_relates dir : pass_relates os excl incl R dir.
Proof.
  induction dir as [| |entries IH] using listing_tree_ind;
    intros dir_path s; rewrite scan_directory_recursive_unfold; cbv zeta;
    set (s0 := DiskMonitorGUI.record_call _ s);
    assert (H0 : R s s0) by apply R_call.
  1,2: destruct (DirCache.is_cached os _ _) as [[|] [cached|]];
       cbn [fst]; try apply R_refl;
       (eapply R_trans; [exact H0|apply R_update]).
  assert (Hloop := scan_entries_relates (os_path_normpath os dir_path)
                     entries IH 0 0 [] s0).
  destruct (DiskMonitorGUI.scan_entries _ _ _ _ _ entries _ _ _ _)
    as [s1 [completed [[ts fc] sd]]].
  simpl in Hloop.
  assert (H1 : R s s1) by (by eapply R_trans).
  destruct (DirCache.is_cached os _ _) as [[|] [cached|]];
    destruct completed; cbn [fst]; try apply R_refl; try done.
  all: eapply R_trans; [exact H1|apply R_update].
Qed.

(** The loop of [_scan_directory], which is the same loop. *)
Lemma scan_entries_relates_all dir_path entries ts fc sd s :
  R s (DiskMonitorGUI.scan_entries os excl
         (DiskMonitorGUI._scan_directory_recursive os excl)
         dir_path incl entries ts fc sd s).1.
Proof.
  apply scan_entries_relates, all_subtrees_satisfy,
    scan_directory_recursive_relates.
Qed.

End pass_relation.

Lemma scan_directory_recursive_keeps_other_policy os excl incl dir dir_path self :
  other_policy_untouched incl self
    (DiskMonitorGUI._scan_directory_recursive os excl dir dir_path incl self).1.
Proof.
  apply scan_directory_recursive_relates.
  - apply other_policy_untouched_refl.
  - apply other_policy_untouched_trans.
  - intros; by apply other_policy_untouched_same.
  - intros; by apply other_policy_untouched_same.
  - intros; apply other_policy_untouched_update.
Qed.

Lemma scan_entries_keeps_other_policy os excl incl dir_path entries ts fc sd self :
  other_policy_untouched incl self
    (DiskMonitorGUI.scan_entries os excl
       (DiskMonitorGUI._scan_directory_recursive os excl)
       dir_path incl entries ts fc sd self).1.
Proof.
  apply scan_entries_relates_all.
  - apply other_policy_untouched_refl.
  - apply other_policy_untouched_trans.
  - intros; by apply other_policy_untouched_same.
  - intros; by apply other_policy_untouched_same.
  - intros; apply other_policy_untouched_update.
Qed.

Lemma read_dir_scanning_dir_cache self :
  DiskMonitorGUI.dir_cache (DiskMonitorGUI.read_dir_scanning self).2
  = DiskMonitorGUI.dir_cache self.
Proof.
  unfold DiskMonitorGUI.read_dir_scanning.
  by destruct (flag_read (DiskMonitorGUI.dir_scanning self)).
Qed.

(** C7: the cache key of any path under one policy differs from the cache
    key of any path under the other policy; a pass under one policy
    ([_scan_directory_recursive], and [_scan_directory] with the policy of
    the check box) leaves every entry kept under a key of the other policy
    as it was, so a lookup under the other policy answers after the pass
    what it answered before: it never returns a summary that this pass
    recorded. *)
Theorem policy_isolation
    (os : OS) (excl : list string) (dir : listing)
    (dir_path parent_item other_path : string) (include_system : bool)
    (self : DiskMonitorGUI.t) :
  let other_key := cache_key other_path (negb include_system) in
  let after :=
    (DiskMonitorGUI._scan_directory_recursive os excl dir dir_path
       include_system self).1 in
  let after_root :=
    (DiskMonitorGUI._scan_directory os excl dir dir_path parent_item self).1 in
  let root_other_key :=
    cache_key other_path (negb (DiskMonitorGUI.include_system_var self)) in
  cache_key dir_path include_system ≠ other_key
  ∧ DiskMonitorGUI.dir_cache after !! other_key
    = DiskMonitorGUI.dir_cache self !! other_key
  ∧ DirCache.is_cached os (DiskMonitorGUI.dir_cache after) other_key
    = DirCache.is_cached os (DiskMonitorGUI.dir_cache self) other_key
  ∧ DiskMonitorGUI.dir_cache after_root !! root_other_key
    = DiskMonitorGUI.dir_cache self !! root_other_key
  ∧ DirCache.is_cached os (DiskMonitorGUI.dir_cache after_root) root_other_key
    = DirCache.is_cached os (DiskMonitorGUI.dir_cache self) root_other_key.
Proof.
  intros other_key after after_root root_other_key.
  assert (Hrec : DiskMonitorGUI.dir_cache after !! other_key
                 = DiskMonitorGUI.dir_cache self !! other_key)
    by apply scan_directory_recursive_keeps_other_policy.
  assert (Hroot : DiskMonitorGUI.dir_cache after_root !! root_other_key
                  = DiskMonitorGUI.dir_cache self !! root_other_key).
  { subst after_root root_other_key. unfold DiskMonitorGUI._scan_directory.
    set (incl := DiskMonitorGUI.include_system_var self).
    pose proof (read_dir_scanning_dir_cache self) as Hread.
    destruct (DiskMonitorGUI.read_dir_scanning self) as [running self0].
    simpl in Hread. destruct running; cbn [negb]; [|by rewrite <- Hread].
    rewrite <- Hread.
    assert (Hfinish : ∀ ts fc st sd s,
      DiskMonitorGUI.dir_cache
        (DiskMonitorGUI.scan_directory_finish parent_item ts fc st sd s).1
      = DiskMonitorGUI.dir_cache s).
    { intros. unfold DiskMonitorGUI.scan_directory_finish.
      by destruct (String.eqb parent_item ""). }
    set (self1 := DiskMonitorGUI.record_call _ self0).
    destruct (DirCache.is_cached os _ _) as [[|] [cached|]];
      rewrite ?Hfinish; try done.
    all: destruct dir as [| |entries]; rewrite ?Hfinish; try done.
    all: pose proof (scan_entries_keeps_other_policy os excl incl
           (os_path_normpath os dir_path) entries 0 0 [] self1 other_path)
           as Hloop.
    all: destruct (DiskMonitorGUI.scan_entries _ _ _ _ _ entries _ _ _ _)
           as [self2 [completed [[ts fc] sd]]];
         simpl in Hloop; destruct completed; rewrite ?Hfinish; try done.
    all: destruct (fc mod 100 =? 0); simpl;
         rewrite <- Hloop;
         apply (other_policy_untouched_update os incl _ ts fc sd self2). }
  split; [apply cache_key_other_policy|].
  unfold DirCache.is_cached. rewrite Hrec, Hroot. by repeat split.
Qed.

(** ** Checkpoints *)

Lemma dir_caches_kept_trans a b c :
  dir_caches_kept a b → dir_caches_kept b c → dir_caches_kept a c.
Proof. intros [? ?] [? ?]. split; congruence. Qed.

Lemma read_scanning_keeps self :
  dir_caches_kept self (DiskMonitorGUI.read_scanning self).2.
Proof.
  unfold DiskMonitorGUI.read_scanning.
  by destruct (flag_read (DiskMonitorGUI.scanning self)).
Qed.

Ltac case_all_matches :=
  repeat match goal with
         | |- context [match ?x with _ => _ end] => destruct x eqn:?
         end.

Lemma load_item_keeps os min_size file_path file_info self :
  dir_caches_kept self
    (DiskMonitorGUI.load_item os min_size file_path file_info self).
Proof. unfold DiskMonitorGUI.load_item. case_all_matches; by split. Qed.

Lemma load_from_cache_keeps os min_size self :
  dir_caches_kept self (DiskMonitorGUI._load_from_cache os min_size self).
Proof.
  unfold DiskMonitorGUI._load_from_cache.
  generalize (ScanCache.cache (DiskMonitorGUI.cache self)). intros items.
  revert self. induction items as [|[file_path file_info] rest IH];
    intros self; simpl; [by split|].
  pose proof (read_scanning_keeps self) as Hread.
  destruct (DiskMonitorGUI.read_scanning self) as [running self0].
  simpl in Hread. destruct running; simpl; [|done].
  eapply dir_caches_kept_trans; [exact Hread|].
  eapply dir_caches_kept_trans; [apply load_item_keeps|apply IH].
Qed.

Lemma check_cache_keeps os min_size file_path self self' :
  DiskMonitorGUI.check_cache os min_size file_path self = Some self' →
  dir_caches_kept self self'
  ∧ DiskMonitorGUI.scan_cache_files self' = DiskMonitorGUI.scan_cache_files self.
Proof.
  unfold DiskMonitorGUI.check_cache, DiskMonitorGUI._update_from_cache.
  intros H.
  repeat match goal with
         | H : context [match ?x with _ => _ end] |- _ => destruct x eqn:?
         end; by simplify_eq.
Qed.

Lemma scan_fresh_file_checkpoint os rt min_size file_path file ts self :
  let r := DiskMonitorGUI.scan_fresh_file os rt min_size file_path file ts self in
  dir_caches_kept self r.2
  ∧ ((r.1 = ts
      ∧ DiskMonitorGUI.scan_cache_files r.2 = DiskMonitorGUI.scan_cache_files self)
     ∨ (r.1 = ts + 1
        ∧ DiskMonitorGUI.scan_cache_files r.2
          = if r.1 mod 500 =? 0 then DiskMonitorGUI.cache r.2
            else DiskMonitorGUI.scan_cache_files self)).
Proof.
  unfold DiskMonitorGUI.scan_fresh_file. cbv zeta.
  destruct (os_stat os file_path) as [stat|]; [|by split; [|left]].
  destruct (min_size <=? st_size stat);
    [destruct (fromtimestamp_isoformat rt (st_mtime stat));
       [|by split; [|left]]|].
  all: destruct (DiskMonitorGUI._is_useless_file rt file_path);
    [destruct (age_in_days rt (st_mtime stat)); [|by split; [|left]]|].
  all: cbn [fst snd]; destruct ((ts + 1) mod 500 =? 0);
    (split; [by split|]); right; by split.
Qed.

(** One file of the file scan: either the count of scanned files stays and
    nothing is saved, or it grows by one and the file cache is saved
    exactly when the new count is a multiple of 500. *)
Lemma scan_file_checkpoint os rt use_cache min_size root file ts self :
  let r := DiskMonitorGUI.scan_file os rt use_cache min_size root file ts self in
  dir_caches_kept self r.2
  ∧ ((r.1 = ts
      ∧ DiskMonitorGUI.scan_cache_files r.2 = DiskMonitorGUI.scan_cache_files self)
     ∨ (r.1 = ts + 1
        ∧ DiskMonitorGUI.scan_cache_files r.2
          = if r.1 mod 500 =? 0 then DiskMonitorGUI.cache r.2
            else DiskMonitorGUI.scan_cache_files self)).
Proof.
  unfold DiskMonitorGUI.scan_file. cbv zeta.
  destruct (os_path_islink os _); [by split; [|left]|].
  destruct use_cache; [|apply scan_fresh_file_checkpoint].
  destruct (DiskMonitorGUI.check_cache os min_size _ self) as [self'|] eqn:Hcheck;
    [|apply scan_fresh_file_checkpoint].
  apply check_cache_keeps in Hcheck as [Hkept Hfiles].
  split; [done|by left].
Qed.

Lemma scan_files_keeps os rt use_cache min_size root files :
  ∀ ts self,
    dir_caches_kept self
      (DiskMonitorGUI.scan_files os rt use_cache min_size root files ts self).2.
Proof.
  induction files as [|file rest IH]; intros ts self; simpl; [by split|].
  pose proof (read_scanning_keeps self) as Hread.
  destruct (DiskMonitorGUI.read_scanning self) as [running self0].
  simpl in Hread. destruct running; simpl; [|done].
  eapply dir_caches_kept_trans; [exact Hread|].
  pose proof (scan_file_checkpoint os rt use_cache min_size root file ts self0)
    as [Hstep _].
  destruct (DiskMonitorGUI.scan_file os rt use_cache min_size root file ts self0)
    as [ts1 self1].
  eapply dir_caches_kept_trans; [exact Hstep|apply IH].
Qed.

Lemma walk_disk_keeps os rt excl use_cache min_size dir :
  ∀ root ts self,
    dir_caches_kept self
      (DiskMonitorGUI.walk_disk os rt excl use_cache min_size dir root ts self).2.2.
Proof.
  induction dir as [| |entries IH] using listing_tree_ind;
    intros root ts self; simpl; try (by split).
  pose proof (read_scanning_keeps self) as Hread.
  destruct (DiskMonitorGUI.read_scanning self) as [running self0].
  simpl in Hread. destruct running; simpl; [|done].
  eapply dir_caches_kept_trans; [exact Hread|].
  pose proof (scan_files_keeps os rt use_cache min_size root
                (DiskMonitorGUI.walk_files entries) ts self0) as Hfiles.
  destruct (DiskMonitorGUI.scan_files _ _ _ _ _ _ _ _) as [ts1 self1].
  eapply dir_caches_kept_trans; [exact Hfiles|].
  clear Hread Hfiles. revert ts1 self1.
  induction IH as [|e rest He _ IHrest]; intros ts1 self1; simpl; [by split|].
  destruct e as [name stat|name sub|name|name]; try apply IHrest.
  destruct (_should_exclude os excl _ || os_path_islink os _); [apply IHrest|].
  specialize (He (os_path_join os root name) ts1 self1).
  destruct (DiskMonitorGUI.walk_disk os rt excl use_cache min_size sub _ ts1 self1)
    as [running [ts2 self2]].
  simpl in He. destruct running; simpl; [|done].
  eapply dir_caches_kept_trans; [exact He|apply IHrest].
Qed.

(** C8, as the specification words it, fails: a file scan over 500 fresh
    files saves the file cache at the 500th file, but the directory cache
    in memory is not written to [dir_cache.json], which still lacks the
    summary that the directory cache holds. *)
Lemma file_scan_checkpoint_skips_dir_cache :
  let before := Fixtures.gui_unsaved_dir_cache in
  let r :=
    DiskMonitorGUI.walk_disk Fixtures.nt_all_large Fixtures.rt_plain
      exclude_dirs false (10 * 1024 * 1024) Fixtures.five_hundred_files
      "C:\" 0 before in
  r.2.1 = 500
  ∧ length (ScanCache.cache (DiskMonitorGUI.scan_cache_files r.2.2)) = 500%nat
  ∧ DiskMonitorGUI.dir_cache_file r.2.2 = ∅
  ∧ is_Some (DiskMonitorGUI.dir_cache r.2.2 !! "C:\Users_system_True")
  ∧ DiskMonitorGUI.dir_cache_file r.2.2 !! "C:\Users_system_True" = None.
Proof. vm_compute. repeat split; by eexists. Qed.

(** The directory pass writes [dir_cache.json] only from
    [_scan_directory], after the loop over the root: the test on
    [file_count % 100], over which the source says that the cache is saved
    periodically, runs once, on the final count of the root, and
    [_scan_directory_recursive] never saves. A pass that reports leaves
    the file equal to the directory cache; a pass that is cancelled
    leaves the file as it was. *)
Lemma directory_pass_saves_when_reporting (os : OS) (excl : list string) :
  (∀ dir dir_path include_system self,
     DiskMonitorGUI.dir_cache_file
       (DiskMonitorGUI._scan_directory_recursive os excl dir dir_path
          include_system self).1
     = DiskMonitorGUI.dir_cache_file self)
  ∧ (∀ root root_path self,
       let r := DiskMonitorGUI._scan_directory os excl root root_path "" self in
       match r.2 with
       | Some _ =>
           DiskMonitorGUI.dir_cache_file r.1 = DiskMonitorGUI.dir_cache r.1
       | None =>
           DiskMonitorGUI.dir_cache_file r.1 = DiskMonitorGUI.dir_cache_file self
       end).
Proof.
  assert (Hrec : ∀ incl dir dir_path self,
    DiskMonitorGUI.dir_cache_file
      (DiskMonitorGUI._scan_directory_recursive os excl dir dir_path incl self).1
    = DiskMonitorGUI.dir_cache_file self).
  { intros incl dir dir_path self.
    apply (scan_directory_recursive_relates os excl incl
             (λ a b, DiskMonitorGUI.dir_cache_file b
                     = DiskMonitorGUI.dir_cache_file a)); try done.
    intros a b c Hab Hbc. by rewrite Hbc. }
  assert (Hloop : ∀ incl dir_path entries ts fc sd self,
    DiskMonitorGUI.dir_cache_file
      (DiskMonitorGUI.scan_entries os excl
         (DiskMonitorGUI._scan_directory_recursive os excl)
         dir_path incl entries ts fc sd self).1
    = DiskMonitorGUI.dir_cache_file self).
  { intros incl dir_path entries ts fc sd self.
    apply (scan_entries_relates_all os excl incl
             (λ a b, DiskMonitorGUI.dir_cache_file b
                     = DiskMonitorGUI.dir_cache_file a)); try done.
    intros a b c Hab Hbc. by rewrite Hbc. }
  split.
  - intros. apply Hrec.
  - intros root root_path self r. subst r.
    unfold DiskMonitorGUI._scan_directory,
      DiskMonitorGUI.scan_directory_finish, DiskMonitorGUI.read_dir_scanning.
    cbn [String.eqb].
    destruct (flag_read (DiskMonitorGUI.dir_scanning self)) as [[|] f];
      cbn [negb fst snd]; [|done].
    destruct (DirCache.is_cached os _ _) as [[|] [cached|]]; cbn [fst snd];
      try done.
    all: destruct root as [| |entries]; cbn [fst snd]; try done.
    all: pose proof (Hloop (DiskMonitorGUI.include_system_var self)
           (os_path_normpath os root_path) entries 0 0 []
           (DiskMonitorGUI.record_call (Scandir (os_path_normpath os root_path))
              (DiskMonitorGUI.set_dir_scanning f self))) as Hl.
    all: destruct (DiskMonitorGUI.scan_entries _ _ _ _ _ entries _ _ _ _)
           as [self1 [completed [[ts fc] sd]]];
         destruct completed; cbn [fst snd]; try done.
    all: by destruct (fc mod 100 =? 0).
Qed.

(** C8 (amended): in the file scan, each file either leaves the count of
    scanned files and the saved file cache as they are (links, cache hits,
    files that raise) or raises the count by one, and then the file cache
    is saved exactly when the new count is a multiple of 500; the scan
    saves the file cache once more when it ends; the file scan never
    touches the directory cache or [dir_cache.json]. *)
Theorem file_scan_checkpoints (os : OS) (rt : Runtime) (excl : list string) :
  (∀ use_cache min_size root file total_scanned self,
     let r :=
       DiskMonitorGUI.scan_file os rt use_cache min_size root file
         total_scanned self in
     (r.1 = total_scanned
      ∧ DiskMonitorGUI.scan_cache_files r.2
        = DiskMonitorGUI.scan_cache_files self)
     ∨ (r.1 = total_scanned + 1
        ∧ DiskMonitorGUI.scan_cache_files r.2
          = if r.1 mod 500 =? 0 then DiskMonitorGUI.cache r.2
            else DiskMonitorGUI.scan_cache_files self))
  ∧ (∀ c_drive use_cache self,
       let after := DiskMonitorGUI._scan_disk os rt excl c_drive use_cache self in
       DiskMonitorGUI.scan_cache_files after = DiskMonitorGUI.cache after
       ∧ DiskMonitorGUI.dir_cache after = DiskMonitorGUI.dir_cache self
       ∧ DiskMonitorGUI.dir_cache_file after = DiskMonitorGUI.dir_cache_file self).
Proof.
  split.
  - intros. apply scan_file_checkpoint.
  - intros c_drive use_cache self after. subst after.
    unfold DiskMonitorGUI._scan_disk.
    set (self0 := if use_cache then _ else _).
    assert (H0 : dir_caches_kept self self0).
    { subst self0. destruct use_cache; [apply load_from_cache_keeps|by split]. }
    pose proof (walk_disk_keeps os rt excl use_cache
                  (DiskMonitorGUI.min_size_mb self * 1024 * 1024)
                  c_drive "C:\" 0 self0) as Hwalk.
    destruct (DiskMonitorGUI.walk_disk _ _ _ _ _ _ _ _ _) as [running [ts self1]].
    simpl in Hwalk.
    destruct (dir_caches_kept_trans _ _ _ H0 Hwalk) as [Hc Hf].
    by repeat split.
Qed.

(** * Further properties of the caches *)

(** ** Signatures *)

Lemma pretty_N_go_free_of_underscore (x : N) (s : string) :
  str_free_of "_"%char s = true → str_free_of "_"%char (pretty_N_go x s) = true.
Proof.
  revert s. induction (N.lt_wf_0 x) as [x _ IH]; intros s Hs.
  assert (x = 0 ∨ 0 < x)%N as [->|Hpos] by lia.
  - by rewrite pretty_N_go_0.
  - rewrite pretty_N_go_step by done. apply IH; [by apply N.div_lt|].
    simpl. rewrite Hs. unfold pretty_N_char. by repeat case_match.
Qed.

Lemma pretty_Z_free_of_underscore (z : Z) : str_free_of "_"%char (pretty z) = true.
Proof.
  destruct z as [|x|x]; [done|..]; unfold pretty, pretty_Z, pretty,
    pretty_positive, pretty, pretty_N; simpl;
    by apply pretty_N_go_free_of_underscore.
Qed.

Lemma append_underscore_inj (a a' b b' : string) :
  str_free_of "_"%char a = true → str_free_of "_"%char a' = true →
  a +:+ "_" +:+ b = a' +:+ "_" +:+ b' → a = a' ∧ b = b'.
Proof.
  revert a'. induction a as [|c a IH]; intros [|c' a'] Ha Ha' H; simpl in *;
    try (by simplify_eq).
  apply andb_true_iff in Ha as [_ Ha]. apply andb_true_iff in Ha' as [_ Ha'].
  injection H as -> H. by destruct (IH a' Ha Ha' H) as [-> ->].
Qed.

(** Two signature strings are equal only if both numbers agree. *)
Lemma signature_string_inj (a a' b b' : Z) :
  pretty a +:+ "_" +:+ pretty b = pretty a' +:+ "_" +:+ pretty b' →
  a = a' ∧ b = b'.
Proof.
  intros H.
  apply append_underscore_inj in H as [Ha Hb];
    try apply pretty_Z_free_of_underscore.
  split; by apply (inj pretty).
Qed.

(** ** [DirCache]: record, then look up *)

Lemma is_cached_after_update os c key sig size count subdirs :
  DirCache.get_dir_signature os key = Some sig →
  DirCache.is_cached os (DirCache.update_cache os c key size count subdirs) key
  = (true, Some {| DirCache.signature := Some sig; DirCache.size := size;
                   DirCache.file_count := count; DirCache.subdirs := subdirs |}).
Proof.
  intros Hsig. unfold DirCache.is_cached.
  rewrite (update_cache_lookup _ _ _ _ _ _ _ Hsig). simpl.
  rewrite Hsig. by rewrite decide_True.
Qed.

(** X1: a summary recorded under a key whose path can be stat'ed is
    returned as valid by the next lookup of that key, with the recorded
    size, file count and children. *)
Theorem dir_cache_update_then_lookup
    (os : OS) (self : DirCache.t) (key sig : string) (size file_count : Z)
    (subdirs : list (string * summary)) :
  DirCache.get_dir_signature os key = Some sig →
  DirCache.is_cached os
    (DirCache.update_cache os self key size file_count subdirs) key
  = (true, Some {| DirCache.signature := Some sig; DirCache.size := size;
                   DirCache.file_count := file_count;
                   DirCache.subdirs := subdirs |}).
Proof. apply is_cached_after_update. Qed.

Lemma dir_cache_update_then_lookup_witness :
  DirCache.is_cached Fixtures.posix_keyed
    (DirCache.update_cache Fixtures.posix_keyed ∅ "/R_system_True" 5000 3 [])
    "/R_system_True"
  = (true, Some {| DirCache.signature := Some "9_20"; DirCache.size := 5000;
                   DirCache.file_count := 3; DirCache.subdirs := [] |}).
Proof.
  apply (dir_cache_update_then_lookup Fixtures.posix_keyed ∅ "/R_system_True"
           "9_20" 5000 3 []).
  reflexivity.
Defined.

(** X2: a summary recorded on one machine state is refused by a lookup on
    a later state in which the path of the key has another modification
    time or another inode number, or can no longer be stat'ed. *)
Theorem dir_cache_lookup_detects_change
    (os os' : OS) (self : DirCache.t) (key : string) (stat : stat_result)
    (size file_count : Z) (subdirs : list (string * summary)) :
  os_stat os key = Some stat →
  match os_stat os' key with
  | Some stat' => st_mtime stat' ≠ st_mtime stat ∨ st_ino stat' ≠ st_ino stat
  | None => True
  end →
  DirCache.is_cached os'
    (DirCache.update_cache os self key size file_count subdirs) key
  = (false, None).
Proof.
  intros Hstat Hchanged.
  assert (Hsig : DirCache.get_dir_signature os key
                 = Some (pretty (st_mtime stat) +:+ "_" +:+ pretty (st_ino stat)))
    by (unfold DirCache.get_dir_signature; by rewrite Hstat).
  unfold DirCache.is_cached.
  rewrite (update_cache_lookup _ _ _ _ _ _ _ Hsig). simpl.
  unfold DirCache.get_dir_signature.
  destruct (os_stat os' key) as [stat'|]; [|by rewrite decide_False].
  rewrite decide_False; [done|].
  intros [= Heq]. apply signature_string_inj in Heq as [Hm Hi].
  destruct Hchanged; congruence.
Qed.

Lemma dir_cache_lookup_detects_change_witness :
  DirCache.is_cached Fixtures.posix_keyed_touched
    (DirCache.update_cache Fixtures.posix_keyed ∅ "/R_system_True" 5000 3 [])
    "/R_system_True"
  = (false, None).
Proof.
  apply (dir_cache_lookup_detects_change Fixtures.posix_keyed
           Fixtures.posix_keyed_touched ∅ "/R_system_True"
           (Fixtures.mkstat 0 9 20) 5000 3 []).
  - reflexivity.
  - simpl. right. discriminate.
Defined.

(** X3: an entry of [dir_cache.json] that carries no signature is served
    as valid for a key whose path cannot be stat'ed: the missing signature
    and the missing live signature are both [None], and compare equal. *)
Theorem dir_cache_unsigned_entry_hits
    (os : OS) (self : DirCache.t) (key : string) (cached : DirCache.entry) :
  self !! key = Some cached →
  DirCache.signature cached = None →
  os_stat os key = None →
  DirCache.is_cached os self key = (true, Some cached).
Proof.
  intros Hkey Hsig Hstat. unfold DirCache.is_cached, DirCache.get_dir_signature.
  rewrite Hkey, Hstat, Hsig. by rewrite decide_True.
Qed.

Lemma dir_cache_unsigned_entry_hits_witness :
  DirCache.is_cached Fixtures.posix_R
    {[ "/R_system_True" := Fixtures.unsigned_entry ]} "/R_system_True"
  = (true, Some Fixtures.unsigned_entry).
Proof.
  by apply (dir_cache_unsigned_entry_hits Fixtures.posix_R
              {[ "/R_system_True" := Fixtures.unsigned_entry ]}
              "/R_system_True" Fixtures.unsigned_entry).
Defined.

(** ** [ScanCache]: record, then look up *)

(** X4: the entry recorded for a readable file is returned as valid by
    the next lookup, whatever the cache held for that path before. *)
Theorem scan_cache_update_then_lookup
    (os : OS) (self : ScanCache.t) (file_path : string) (file_info : pyval)
    (stat : stat_result) :
  os_stat os file_path = Some stat →
  ScanCache.is_cached os (ScanCache.update_cache os self file_path file_info)
    file_path
  = Ok (true, file_info).
Proof.
  intros Hstat. unfold ScanCache.is_cached, ScanCache.update_cache.
  rewrite (get_file_signature_readable _ _ _ Hstat). simpl.
  rewrite !dict_get_set_eq. simpl. by rewrite String.eqb_refl.
Qed.

Lemma scan_cache_update_then_lookup_witness :
  ScanCache.is_cached Fixtures.nt_one_file
    (ScanCache.update_cache Fixtures.nt_one_file Fixtures.cache_with_gone
       "C:\big.iso" Fixtures.new_info) "C:\big.iso"
  = Ok (true, Fixtures.new_info).
Proof.
  by apply (scan_cache_update_then_lookup Fixtures.nt_one_file
              Fixtures.cache_with_gone "C:\big.iso" Fixtures.new_info
              (Fixtures.mkstat 700 42 7)).
Defined.

(** X5: an entry recorded for a file is refused, without error, by a
    lookup made after the size or the modification time of the file has
    changed. *)
Theorem scan_cache_lookup_detects_change
    (os os' : OS) (self : ScanCache.t) (file_path : string)
    (file_info : pyval) (stat stat' : stat_result) :
  os_stat os file_path = Some stat →
  os_stat os' file_path = Some stat' →
  st_size stat' ≠ st_size stat ∨ st_mtime stat' ≠ st_mtime stat →
  ScanCache.is_cached os' (ScanCache.update_cache os self file_path file_info)
    file_path
  = Ok (false, PNone).
Proof.
  intros Hstat Hstat' Hchanged. unfold ScanCache.is_cached, ScanCache.update_cache.
  rewrite (get_file_signature_readable _ _ _ Hstat),
    (get_file_signature_readable _ _ _ Hstat'). simpl.
  rewrite !dict_get_set_eq. simpl.
  destruct (String.eqb_spec
              (pretty (st_size stat) +:+ "_" +:+ pretty (st_mtime stat))
              (pretty (st_size stat') +:+ "_" +:+ pretty (st_mtime stat')))
    as [Heq|_]; [|done].
  apply signature_string_inj in Heq as [Hs Hm]. destruct Hchanged; congruence.
Qed.

Lemma scan_cache_lookup_detects_change_witness :
  ScanCache.is_cached Fixtures.nt_one_file_touched
    (ScanCache.update_cache Fixtures.nt_one_file ScanCache.empty
       "C:\big.iso" Fixtures.new_info) "C:\big.iso"
  = Ok (false, PNone).
Proof.
  apply (scan_cache_lookup_detects_change Fixtures.nt_one_file
           Fixtures.nt_one_file_touched ScanCache.empty "C:\big.iso"
           Fixtures.new_info (Fixtures.mkstat 700 42 7)
           (Fixtures.mkstat 700 43 7)).
  - reflexivity.
  - reflexivity.
  - right. discriminate.
Defined.

(** ** [ScanCache]: caches filled by [update_cache] alone *)

(** Every index value is a signature dictionary and has its entry. *)
Lemma built_by_updates_index (c : ScanCache.t) :
  built_by_updates c →
  ∀ file_path v,
    dict_get (ScanCache.cache_index c) file_path = Some v →
    (∃ sig, v = ScanCache.signature_dict sig)
    ∧ is_Some (dict_get (ScanCache.cache c) file_path).
Proof.
  induction 1 as [|os c updated file_info _ IH]; intros file_path v Hv;
    [done|].
  unfold ScanCache.update_cache in *.
  destruct (ScanCache.get_file_signature os updated) as [sig|]; [|by apply IH].
  simpl in *. destruct (decide (file_path = updated)) as [->|Hne].
  - rewrite dict_get_set_eq in Hv |- *. simplify_eq. split; by eexists.
  - rewrite dict_get_set_ne in Hv |- * by done. by apply IH.
Qed.

(** X6: on a cache that only [update_cache] has written (the state the
    scans build, as opposed to an imported one), [is_cached] raises
    nothing, and a result reported as valid carries the entry that the
    cache holds for the path: valid-without-entry cannot happen. *)
Theorem built_cache_lookup_is_sound
    (os : OS) (c : ScanCache.t) (file_path : string) :
  built_by_updates c →
  ∃ valid entry,
    ScanCache.is_cached os c file_path = Ok (valid, entry)
    ∧ (valid = true → dict_get (ScanCache.cache c) file_path = Some entry).
Proof.
  intros Hbuilt. unfold ScanCache.is_cached.
  destruct (ScanCache.get_file_signature os file_path) as [current|];
    [|by exists false, PNone].
  destruct (dict_get (ScanCache.cache_index c) file_path) as [v|] eqn:Hv;
    [|by exists false, PNone].
  destruct (built_by_updates_index c Hbuilt _ _ Hv) as [[sig ->] [entry Hentry]].
  simpl.
  destruct (String.eqb (ScanCache.signature sig) (ScanCache.signature current));
    [|by exists false, PNone].
  exists true, entry. by rewrite Hentry.
Qed.

Lemma built_cache_lookup_is_sound_witness :
  ∃ valid entry,
    ScanCache.is_cached Fixtures.nt_one_file
      (ScanCache.update_cache Fixtures.nt_one_file ScanCache.empty
         "C:\big.iso" Fixtures.new_info) "C:\big.iso" = Ok (valid, entry)
    ∧ (valid = true →
       dict_get
         (ScanCache.cache
            (ScanCache.update_cache Fixtures.nt_one_file ScanCache.empty
               "C:\big.iso" Fixtures.new_info)) "C:\big.iso" = Some entry).
Proof.
  apply (built_cache_lookup_is_sound Fixtures.nt_one_file
           (ScanCache.update_cache Fixtures.nt_one_file ScanCache.empty
              "C:\big.iso" Fixtures.new_info) "C:\big.iso").
  apply built_update, built_empty.
Defined.

(** ** Exclusion: the exact condition *)

(** X7: [_should_exclude] answers [True] exactly for the paths whose
    normalised string begins with the normalised string of a configured
    directory; with nothing configured it excludes nothing. *)
Theorem should_exclude_iff_prefix
    (os : OS) (excl : list string) (path : string) :
  (_should_exclude os excl path = true
   ↔ ∃ exclude rest,
       exclude ∈ excl
       ∧ os_path_normpath os path = os_path_normpath os exclude +:+ rest)
  ∧ _should_exclude os [] path = false.
Proof.
  split; [|done]. unfold _should_exclude. rewrite existsb_exists. split.
  - intros (exclude & Hin & Hprefix). apply prefix_inv in Hprefix as [rest Hrest].
    exists exclude, rest. split; [by apply list_elem_of_In|done].
  - intros (exclude & rest & Hin & Hpath). exists exclude.
    split; [by apply list_elem_of_In|]. rewrite Hpath. apply prefix_append.
Qed.

(** * Further properties of the directory pass *)

Lemma scan_directory_recursive_unstopped os excl incl dir dir_path self :
  DiskMonitorGUI.dir_scanning self = None →
  DiskMonitorGUI.dir_scanning
    (DiskMonitorGUI._scan_directory_recursive os excl dir dir_path incl self).1
  = None.
Proof.
  intros Hflag.
  by destruct (scan_directory_recursive_skips_failures os excl incl dir
                 dir_path self self) as [_ (_ & ? & _)].
Qed.

(** A pass that nobody stops runs every loop to its end. *)
Lemma scan_entries_unstopped os excl dir_path incl entries :
  ∀ ts fc sd self,
    DiskMonitorGUI.dir_scanning self = None →
    let r :=
      DiskMonitorGUI.scan_entries os excl
        (DiskMonitorGUI._scan_directory_recursive os excl)
        dir_path incl entries ts fc sd self in
    r.2.1 = true ∧ DiskMonitorGUI.dir_scanning r.1 = None.
Proof.
  induction entries as [|e rest IH]; intros ts fc sd self Hflag; [done|].
  cbn [DiskMonitorGUI.scan_entries].
  rewrite (read_dir_scanning_unstopped self Hflag). cbn [negb].
  destruct e as [name [stat|]|name sub|name|name]; try by apply IH.
  destruct (negb incl && _should_exclude os excl (os_path_join os dir_path name));
    [by apply IH|].
  pose proof (scan_directory_recursive_unstopped os excl incl sub
                (os_path_join os dir_path name)
                (DiskMonitorGUI.set_dir_scanning None self) eq_refl) as Hsub.
  destruct (DiskMonitorGUI._scan_directory_recursive os excl sub _ incl _)
    as [self1 [[sub_size sub_count] sub_subdirs]].
  simpl in Hsub. destruct ((0 <? sub_size) || (0 <? sub_count)); by apply IH.
Qed.

(** X8: when the path that the key names can be stat'ed, a pass that
    nobody stops is followed by passes that return the same totals and
    children without a single enumeration call and without touching the
    state, whatever the directory holds by then: the summary is served
    for as long as the signature of the key stands. *)
Theorem later_passes_serve_the_recorded_summary
    (os : OS) (excl : list string) (dir dir' : listing) (dir_path sig : string)
    (include_system : bool) (self : DiskMonitorGUI.t) :
  DirCache.get_dir_signature os
    (cache_key (os_path_normpath os dir_path) include_system) = Some sig →
  DiskMonitorGUI.dir_scanning self = None →
  let first :=
    DiskMonitorGUI._scan_directory_recursive os excl dir dir_path
      include_system self in
  DiskMonitorGUI._scan_directory_recursive os excl dir' dir_path
    include_system first.1
  = first.
Proof.
  intros Hsig Hflag first. subst first.
  rewrite (scan_directory_recursive_unfold os excl dir). cbv zeta.
  set (key := cache_key (os_path_normpath os dir_path) include_system) in *.
  set (self0 := DiskMonitorGUI.record_call _ self).
  assert (Hserved : ∀ mid ts fc sd,
    DiskMonitorGUI._scan_directory_recursive os excl dir' dir_path
      include_system
      (DiskMonitorGUI.set_dir_cache
         (DirCache.update_cache os (DiskMonitorGUI.dir_cache mid) key ts fc sd)
         mid)
    = (DiskMonitorGUI.set_dir_cache
         (DirCache.update_cache os (DiskMonitorGUI.dir_cache mid) key ts fc sd)
         mid, (ts, fc, sd))).
  { intros mid ts fc sd. rewrite scan_directory_recursive_unfold. cbv zeta.
    fold key. cbn [DiskMonitorGUI.dir_cache DiskMonitorGUI.set_dir_cache].
    by rewrite (is_cached_after_update os _ key sig ts fc sd Hsig). }
  destruct (DirCache.is_cached os (DiskMonitorGUI.dir_cache self) key)
    as [[|] [cached|]] eqn:Hhit.
  1: { cbn [fst snd]. rewrite scan_directory_recursive_unfold. cbv zeta.
       fold key. by rewrite Hhit. }
  all: destruct dir as [| |entries]; cbn [fst snd]; try apply Hserved.
  all: pose proof (scan_entries_unstopped os excl (os_path_normpath os dir_path)
         include_system entries 0 0 [] self0 Hflag) as [Hdone _].
  all: destruct (DiskMonitorGUI.scan_entries _ _ _ _ _ entries _ _ _ _)
         as [mid [completed [[ts fc] sd]]]; simpl in Hdone; subst completed.
  all: cbn [fst snd]; apply Hserved.
Qed.

Lemma later_passes_serve_the_recorded_summary_witness :
  DiskMonitorGUI._scan_directory_recursive Fixtures.posix_keyed exclude_dirs
    Fixtures.tree_readable "/R" true
    (DiskMonitorGUI._scan_directory_recursive Fixtures.posix_keyed exclude_dirs
       Fixtures.tree_last_child "/R" true (Fixtures.gui None)).1
  = DiskMonitorGUI._scan_directory_recursive Fixtures.posix_keyed exclude_dirs
      Fixtures.tree_last_child "/R" true (Fixtures.gui None).
Proof.
  by apply (later_passes_serve_the_recorded_summary Fixtures.posix_keyed
              exclude_dirs Fixtures.tree_last_child Fixtures.tree_readable
              "/R" "9_20" true (Fixtures.gui None)).
Defined.

(** X9: once the flag is cleared, a pass that enters a directory with at
    least one entry records nothing: the directory cache is left as it
    was, and unless the directory is served from the cache the totals
    returned are zero; [_scan_directory] returns at once, reports nothing
    and saves nothing. *)
Theorem stopped_pass_records_nothing
    (os : OS) (excl : list string) (e : dirent) (rest : list dirent)
    (dir_path parent_item : string) (include_system : bool)
    (self : DiskMonitorGUI.t) :
  DiskMonitorGUI.dir_scanning self = Some O →
  let r :=
    DiskMonitorGUI._scan_directory_recursive os excl (ScandirOk (e :: rest))
      dir_path include_system self in
  DiskMonitorGUI.dir_cache r.1 = DiskMonitorGUI.dir_cache self
  ∧ (DirCache.is_cached os (DiskMonitorGUI.dir_cache self)
       (cache_key (os_path_normpath os dir_path) include_system)
     = (false, None) → r.2 = (0, 0, []))
  ∧ DiskMonitorGUI._scan_directory os excl (ScandirOk (e :: rest)) dir_path
      parent_item self
    = (self, None).
Proof.
  intros Hflag r. subst r.
  assert (Hread : DiskMonitorGUI.read_dir_scanning self = (false, self)).
  { unfold DiskMonitorGUI.read_dir_scanning. rewrite Hflag. simpl.
    destruct self; simpl in *; by subst. }
  rewrite scan_directory_recursive_unfold. cbv zeta.
  cbn [DiskMonitorGUI.scan_entries].
  assert (Hread0 : ∀ c,
    DiskMonitorGUI.read_dir_scanning (DiskMonitorGUI.record_call c self)
    = (false, DiskMonitorGUI.record_call c self)).
  { intros c. unfold DiskMonitorGUI.read_dir_scanning,
      DiskMonitorGUI.record_call. simpl. rewrite Hflag. simpl.
    destruct self; simpl in *; by subst. }
  rewrite Hread0. cbn [negb].
  repeat split.
  - by destruct (DirCache.is_cached os _ _) as [[|] [cached|]].
  - by intros ->.
  - unfold DiskMonitorGUI._scan_directory. by rewrite Hread.
Qed.

Lemma stopped_pass_records_nothing_witness :
  DiskMonitorGUI._scan_directory Fixtures.posix_keyed exclude_dirs
    Fixtures.tree_readable "/R" "" (_stop_dir_scan (Fixtures.gui None))
  = (_stop_dir_scan (Fixtures.gui None), None).
Proof.
  by apply (stopped_pass_records_nothing Fixtures.posix_keyed exclude_dirs
              (FileEntry "a" (Some (Fixtures.mkstat 1000 5 11))) [] "/R" ""
              true (_stop_dir_scan (Fixtures.gui None))).
Defined.

(** ** Machines on which no cache key names a path *)

Lemma is_cached_unsignable_key os c key :
  os_stat os key = None → all_signed c →
  DirCache.is_cached os c key = (false, None).
Proof.
  intros Hstat Hsigned. unfold DirCache.is_cached, DirCache.get_dir_signature.
  rewrite Hstat. destruct (c !! key) as [cached|] eqn:Hkey; [|done].
  rewrite decide_False; [done|]. by apply (Hsigned key).
Qed.

Lemma tree_entries_total_count os excl incl dir_path entries :
  Forall (subtrees_satisfy
            (λ sub, ∀ path, 0 ≤ (tree_total os excl incl sub path).2
                            ∧ ((tree_total os excl incl sub path).2 = 0 →
                               (tree_total os excl incl sub path).1 = 0)))
         entries →
  let t := tree_entries_total os excl (tree_total os excl incl) dir_path incl
             entries in
  0 ≤ t.2 ∧ (t.2 = 0 → t.1 = 0).
Proof.
  induction 1 as [|e rest He _ IH]; simpl; [done|].
  destruct (tree_entries_total _ _ _ _ _ rest) as [size count].
  simpl in IH. destruct IH as [Hcount Hzero].
  destruct e as [name [stat|]|name sub|name|name]; simpl; try done.
  - split; lia.
  - destruct (negb incl && _should_exclude os excl _); [done|].
    specialize (He (os_path_join os dir_path name)).
    destruct (tree_total os excl incl sub _) as [sub_size sub_count].
    simpl in *. destruct He as [Hsub Hsubzero]. split; [lia|].
    intros Hsum. rewrite Hzero, Hsubzero; lia.
Qed.

Lemma tree_total_count os excl incl dir :
  ∀ path, 0 ≤ (tree_total os excl incl dir path).2
          ∧ ((tree_total os excl incl dir path).2 = 0 →
             (tree_total os excl incl dir path).1 = 0).
Proof.
  induction dir as [| |entries IH] using listing_tree_ind; intros path;
    simpl; try done.
  by apply tree_entries_total_count.
Qed.

Lemma scan_entries_recomputes os excl incl dir_path entries :
  (∀ p, os_stat os (cache_key p incl) = None) →
  Forall (subtrees_satisfy (recomputes os excl incl)) entries →
  ∀ ts fc sd self,
    all_signed (DiskMonitorGUI.dir_cache self) →
    DiskMonitorGUI.dir_scanning self = None →
    let r :=
      DiskMonitorGUI.scan_entries os excl
        (DiskMonitorGUI._scan_directory_recursive os excl)
        dir_path incl entries ts fc sd self in
    let t := tree_entries_total os excl (tree_total os excl incl) dir_path incl
               entries in
    r.2.1 = true
    ∧ DiskMonitorGUI.dir_cache r.1 = DiskMonitorGUI.dir_cache self
    ∧ DiskMonitorGUI.dir_scanning r.1 = None
    ∧ r.2.2.1.1 = ts + t.1 ∧ r.2.2.1.2 = fc + t.2.
Proof.
  intros Hkeys. induction 1 as [|e rest He _ IH];
    intros ts fc sd self Hsigned Hflag; cbn zeta.
  { simpl. repeat split; try done; lia. }
  cbn [DiskMonitorGUI.scan_entries tree_entries_total].
  rewrite (read_dir_scanning_unstopped self Hflag). cbn [negb].
  set (self0 := DiskMonitorGUI.set_dir_scanning None self).
  destruct (tree_entries_total os excl (tree_total os excl incl) dir_path incl
              rest) as [size count] eqn:Hrest.
  assert (Hnext : ∀ ts' fc' sd' self',
    DiskMonitorGUI.dir_cache self' = DiskMonitorGUI.dir_cache self →
    DiskMonitorGUI.dir_scanning self' = None →
    let r :=
      DiskMonitorGUI.scan_entries os excl
        (DiskMonitorGUI._scan_directory_recursive os excl)
        dir_path incl rest ts' fc' sd' self' in
    r.2.1 = true
    ∧ DiskMonitorGUI.dir_cache r.1 = DiskMonitorGUI.dir_cache self
    ∧ DiskMonitorGUI.dir_scanning r.1 = None
    ∧ r.2.2.1.1 = ts' + size ∧ r.2.2.1.2 = fc' + count).
  { intros ts' fc' sd' self' Hc Hf.
    destruct (IH ts' fc' sd' self') as (? & Hc' & ? & ? & ?);
      [by rewrite Hc|done|].
    repeat split; try done. by rewrite Hc'. }
  destruct e as [name [stat|]|name sub|name|name]; cbn [fst snd].
  - destruct (Hnext (ts + st_size stat) (fc + 1) sd
                (DiskMonitorGUI.record_call
                   (EntryStat (os_path_join os dir_path name)) self0))
      as (? & ? & ? & ? & ?); [done..|].
    repeat split; try done; lia.
  - destruct (Hnext ts fc sd
                (DiskMonitorGUI.record_call
                   (EntryStat (os_path_join os dir_path name)) self0))
      as (? & ? & ? & ? & ?); [done..|].
    by repeat split.
  - destruct (negb incl && _should_exclude os excl (os_path_join os dir_path name)).
    { destruct (Hnext ts fc sd self0) as (? & ? & ? & ? & ?); [done..|].
      by repeat split. }
    destruct (He (os_path_join os dir_path name) self0 Hsigned eq_refl)
      as (Hc1 & Hf1 & Htot & Hcnt & Hzero).
    destruct (DiskMonitorGUI._scan_directory_recursive os excl sub _ incl self0)
      as [self1 [[sub_size sub_count] sub_subdirs]].
    cbn [fst snd] in *. rewrite <- Htot. cbn [fst snd].
    destruct ((0 <? sub_size) || (0 <? sub_count)) eqn:Hpos.
    + destruct (Hnext (ts + sub_size) (fc + sub_count)
                  (dict_set sd name (Summary sub_size sub_count sub_subdirs))
                  self1) as (? & ? & ? & ? & ?); [done..|].
      repeat split; try done; lia.
    + apply orb_false_iff in Hpos as [Hs Hc]. apply Z.ltb_ge in Hs, Hc.
      assert (sub_count = 0) by lia. assert (sub_size = 0) by auto.
      destruct (Hnext ts fc sd self1) as (? & ? & ? & ? & ?); [done..|].
      repeat split; try done; lia.
  - destruct (Hnext ts fc sd self0) as (? & ? & ? & ? & ?); [done..|].
    by repeat split.
  - destruct (Hnext ts fc sd self0) as (? & ? & ? & ? & ?); [done..|].
    by repeat split.
Qed.

Lemma scan_directory_recursive_recomputes os excl incl dir :
  (∀ p, os_stat os (cache_key p incl) = None) →
  recomputes os excl incl dir.
Proof.
  intros Hkeys.
  induction dir as [| |entries IH] using listing_tree_ind;
    intros dir_path self Hsigned Hflag r; subst r;
    rewrite scan_directory_recursive_unfold; cbv zeta;
    rewrite (is_cached_unsignable_key os _ _ (Hkeys _) Hsigned).
  1,2: cbn [DiskMonitorGUI.dir_cache DiskMonitorGUI.record_call
            DiskMonitorGUI.set_oscalls];
       rewrite (update_cache_unreadable_key os _ _ _ _ _ (Hkeys _));
       by repeat split.
  pose proof (scan_entries_recomputes os excl incl (os_path_normpath os dir_path)
                entries Hkeys IH 0 0 []
                (DiskMonitorGUI.record_call
                   (Scandir (os_path_normpath os dir_path)) self)
                Hsigned Hflag) as (Hdone & Hc & Hf & Hts & Hfc).
  pose proof (tree_entries_total_count os excl incl
                (os_path_normpath os dir_path) entries
                (all_subtrees_satisfy _ (tree_total_count os excl incl) _))
    as [Hcnt Hzero].
  destruct (DiskMonitorGUI.scan_entries _ _ _ _ _ entries _ _ _ _)
    as [mid [completed [[ts fc] sd]]].
  cbn [fst snd] in *. subst completed.
  rewrite (update_cache_unreadable_key os _ _ _ _ _ (Hkeys _)).
  cbn [tree_total fst snd].
  destruct (tree_entries_total _ _ _ _ _ entries) as [size count].
  cbn [fst snd] in *.
  repeat split; simpl; try done; try lia.
  f_equal; lia.
Qed.

(** X10: on a machine where no path is named like a cache key of the
    policy, a pass that nobody stops, from a cache whose entries are all
    signed, records nothing at all and returns, for every directory,
    the size and the number of the files below it whose [stat] succeeds,
    subdirectories excluded by the policy left out. *)
Theorem unsignable_keys_recompute_everything
    (os : OS) (excl : list string) (dir : listing) (dir_path : string)
    (include_system : bool) (self : DiskMonitorGUI.t) :
  (∀ p, os_stat os (cache_key p include_system) = None) →
  all_signed (DiskMonitorGUI.dir_cache self) →
  DiskMonitorGUI.dir_scanning self = None →
  let r :=
    DiskMonitorGUI._scan_directory_recursive os excl dir dir_path
      include_system self in
  DiskMonitorGUI.dir_cache r.1 = DiskMonitorGUI.dir_cache self
  ∧ (r.2.1.1, r.2.1.2) = tree_total os excl include_system dir dir_path.
Proof.
  intros Hkeys Hsigned Hflag r.
  destruct (scan_directory_recursive_recomputes os excl include_system dir
              Hkeys dir_path self Hsigned Hflag) as (? & _ & ? & _).
  by split.
Qed.

Lemma unsignable_keys_recompute_everything_witness :
  DiskMonitorGUI.dir_cache
    (DiskMonitorGUI._scan_directory_recursive Fixtures.nt_empty exclude_dirs
       Fixtures.tree_R "C:\R" true (Fixtures.gui None)).1
  = ∅
  ∧ ((DiskMonitorGUI._scan_directory_recursive Fixtures.nt_empty exclude_dirs
        Fixtures.tree_R "C:\R" true (Fixtures.gui None)).2.1.1,
     (DiskMonitorGUI._scan_directory_recursive Fixtures.nt_empty exclude_dirs
        Fixtures.tree_R "C:\R" true (Fixtures.gui None)).2.1.2)
    = (3000, 2).
Proof.
  apply (unsignable_keys_recompute_everything Fixtures.nt_empty exclude_dirs
           Fixtures.tree_R "C:\R" true (Fixtures.gui None)).
  - reflexivity.
  - intros key cached Hkey.
    change ((∅ : DirCache.t) !! key = Some cached) in Hkey.
    by rewrite lookup_empty in Hkey.
  - reflexivity.
Defined.

(** * Properties of cache management *)

Lemma dict_get_del_eq {V} (d : list (string * V)) (k : string) :
  dict_get (dict_del d k) k = None.
Proof.
  unfold dict_del. induction d as [|[k' v] d IH]; simpl; [done|].
  rewrite filter_cons. simpl. case_decide as Hk; simpl; [|done].
  by destruct (String.eqb_spec k' k).
Qed.

Lemma dict_get_del_ne {V} (d : list (string * V)) (k other : string) :
  other ≠ k → dict_get (dict_del d k) other = dict_get d other.
Proof.
  intros Hne. unfold dict_del. induction d as [|[k' v] d IH]; simpl; [done|].
  rewrite filter_cons. simpl. case_decide as Hk; simpl.
  - by rewrite IH.
  - subst k'. by destruct (String.eqb_spec k other) as [->|_].
Qed.

Lemma dict_get_is_Some {V} (d : list (string * V)) (k : string) :
  is_Some (dict_get d k) ↔ k ∈ d.*1.
Proof.
  induction d as [|[k' v] d IH]; simpl.
  - split; [by intros [? ?]|by intros ?%elem_of_nil].
  - rewrite elem_of_cons. destruct (String.eqb_spec k' k) as [->|Hne].
    + split; [by left|by eexists].
    + rewrite IH. split; [by right|by intros [->|?]].
Qed.

Lemma bool_decide_elem_of_cons_ne (p k : string) (keys : list string) :
  p ≠ k → bool_decide (p ∈ k :: keys) = bool_decide (p ∈ keys).
Proof.
  intros Hne. apply bool_decide_ext. rewrite elem_of_cons.
  split; [by intros [?|?]|by right].
Qed.

(** What the cleaning loop leaves of a cache. *)
Lemma clean_expired_keys_spec os keys :
  ∀ c removed,
    let r := clean_expired_keys os keys c removed in
    (∀ p, dict_get (ScanCache.cache r.1) p
          = if bool_decide (p ∈ keys) && negb (os_path_exists os p)
            then None else dict_get (ScanCache.cache c) p)
    ∧ (∀ p, dict_get (ScanCache.cache_index r.1) p
            = if bool_decide (p ∈ keys) && negb (os_path_exists os p)
              then None else dict_get (ScanCache.cache_index c) p)
    ∧ r.2 = removed
            + Z.of_nat (length (filter (λ k, os_path_exists os k = false) keys)).
Proof.
  induction keys as [|k keys IH]; intros c removed; simpl.
  { repeat split; try done. lia. }
  rewrite filter_cons.
  destruct (os_path_exists os k) eqn:Hk; simpl.
  - destruct (IH c removed) as (Hc & Hi & Hn).
    repeat split; [| |done]; intros p; rewrite ?Hc, ?Hi;
      destruct (decide (p = k)) as [->|Hne].
    all: rewrite ?Hk, ?andb_false_r; simpl; try done.
    all: by rewrite !(bool_decide_elem_of_cons_ne p k keys Hne).
  - destruct (IH {| ScanCache.cache := dict_del (ScanCache.cache c) k;
                    ScanCache.cache_index := dict_del (ScanCache.cache_index c) k |}
                (removed + 1)) as (Hc & Hi & Hn).
    repeat split; [| |simpl; lia]; intros p; rewrite ?Hc, ?Hi; simpl;
      destruct (decide (p = k)) as [->|Hne].
    all: rewrite ?Hk, ?dict_get_del_eq; simpl.
    1,3: rewrite (bool_decide_eq_true_2 (k ∈ k :: keys)) by (by left);
         by destruct (bool_decide (k ∈ keys)).
    all: rewrite dict_get_del_ne by done;
         by rewrite !(bool_decide_elem_of_cons_ne p k keys Hne).
Qed.

(** X11: after [_clean_expired_cache], every path that the cache still
    holds exists; the entries and index signatures of existing paths are
    untouched; a cached path that no longer exists has lost its entry and
    its index signature; index signatures of paths that the cache never
    held are not cleaned; the count returned is the number of cached paths
    that no longer exist; and the result is saved. *)
Theorem clean_expired_cache_spec (os : OS) (self : DiskMonitorGUI.t) :
  let before := DiskMonitorGUI.cache self in
  let r := _clean_expired_cache os self in
  let after := DiskMonitorGUI.cache r.1 in
  (∀ p, is_Some (dict_get (ScanCache.cache after) p) →
        os_path_exists os p = true)
  ∧ (∀ p, os_path_exists os p = true →
          dict_get (ScanCache.cache after) p = dict_get (ScanCache.cache before) p
          ∧ dict_get (ScanCache.cache_index after) p
            = dict_get (ScanCache.cache_index before) p)
  ∧ (∀ p, is_Some (dict_get (ScanCache.cache before) p) →
          os_path_exists os p = false →
          dict_get (ScanCache.cache after) p = None
          ∧ dict_get (ScanCache.cache_index after) p = None)
  ∧ (∀ p, dict_get (ScanCache.cache before) p = None →
          dict_get (ScanCache.cache_index after) p
          = dict_get (ScanCache.cache_index before) p)
  ∧ r.2 = Z.of_nat (length (filter (λ k, os_path_exists os k = false)
                              (ScanCache.cache before).*1))
  ∧ DiskMonitorGUI.scan_cache_files r.1 = after.
Proof.
  intros before r after. subst r after before.
  unfold _clean_expired_cache.
  pose proof (clean_expired_keys_spec os
                (ScanCache.cache (DiskMonitorGUI.cache self)).*1
                (DiskMonitorGUI.cache self) 0) as (Hc & Hi & Hn).
  destruct (clean_expired_keys os _ _ 0) as [c removed]. simpl in *.
  repeat split.
  - intros p Hp. rewrite Hc in Hp.
    destruct (os_path_exists os p); [done|]. simpl in Hp.
    rewrite andb_true_r in Hp. case_bool_decide as Hin.
    + by destruct Hp.
    + apply dict_get_is_Some in Hp. by destruct Hin.
  - rewrite Hc, H. by rewrite andb_false_r.
  - rewrite Hi, H. by rewrite andb_false_r.
  - rewrite Hc, H0. apply dict_get_is_Some in H.
    by rewrite bool_decide_eq_true_2.
  - rewrite Hi, H0. apply dict_get_is_Some in H.
    by rewrite bool_decide_eq_true_2.
  - intros p Hp. rewrite Hi. rewrite bool_decide_eq_false_2; [done|].
    intros Hin%dict_get_is_Some. rewrite Hp in Hin. by destruct Hin.
  - lia.
Qed.

(** A path absent from the cache stays absent through the deletions. *)
Lemma delete_files_stays_purged os remove_ok fp sel :
  ∀ d,
    dict_get (ScanCache.cache (purged d)) fp = None →
    dict_get (ScanCache.cache_index (purged d)) fp = None →
    dict_get (ScanCache.cache (purged (delete_files os remove_ok sel d))) fp
    = None
    ∧ dict_get (ScanCache.cache_index
                  (purged (delete_files os remove_ok sel d))) fp
      = None.
Proof.
  induction sel as [|q sel IH]; intros d Hc Hi; [done|].
  cbn [delete_files].
  destruct (os_path_exists os q && bool_decide (q ∉ gone d)); [|by apply IH].
  destruct (os_stat os q); [|by apply IH].
  destruct (remove_ok q); [|by apply IH].
  apply IH; simpl.
  - destruct (decide (fp = q)) as [->|?];
      [apply dict_get_del_eq|by rewrite dict_get_del_ne].
  - destruct (decide (fp = q)) as [->|?];
      [apply dict_get_del_eq|by rewrite dict_get_del_ne].
Qed.

(** What the deletion loop does to its tallies and to the cache. *)
Lemma delete_files_spec os remove_ok sel :
  ∀ d,
    let r := delete_files os remove_ok sel d in
    (∀ p, p ∈ gone r ↔
          p ∈ gone d
          ∨ (p ∈ sel ∧ os_path_exists os p = true ∧ remove_ok p = true))
    ∧ (∀ p, p ∈ gone r → p ∉ gone d →
            dict_get (ScanCache.cache (purged r)) p = None
            ∧ dict_get (ScanCache.cache_index (purged r)) p = None)
    ∧ (∀ p, p ∉ gone r →
            dict_get (ScanCache.cache (purged r)) p
            = dict_get (ScanCache.cache (purged d)) p
            ∧ dict_get (ScanCache.cache_index (purged r)) p
              = dict_get (ScanCache.cache_index (purged d)) p)
    ∧ deleted r - Z.of_nat (length (gone r))
      = deleted d - Z.of_nat (length (gone d))
    ∧ total_freed r - freed_by os (gone r) = total_freed d - freed_by os (gone d)
    ∧ failed d ≤ failed r
    ∧ (deleted r - deleted d) + (failed r - failed d) ≤ Z.of_nat (length sel)
    ∧ (NoDup (gone d) → NoDup (gone r)).
Proof.
  induction sel as [|fp rest IH]; intros d.
  { simpl. split_and!; try done; try lia.
    intros p. split; [by left|].
    intros [?|(Hin & _)]; [done|by apply elem_of_nil in Hin]. }
  cbn [delete_files].
  destruct (os_path_exists os fp && bool_decide (fp ∉ gone d)) eqn:Hthere.
  - apply andb_true_iff in Hthere as [Hexists Hfresh].
    apply bool_decide_eq_true in Hfresh.
    assert (Hstat : is_Some (os_stat os fp))
      by (by apply bool_decide_eq_true in Hexists).
    destruct Hstat as [stat Hstat]. rewrite Hstat.
    destruct (remove_ok fp) eqn:Hok.
    + set (d1 := {| deleted := deleted d + 1; failed := failed d;
                    total_freed := total_freed d + st_size stat;
                    gone := fp :: gone d;
                    purged :=
                      {| ScanCache.cache := dict_del (ScanCache.cache (purged d)) fp;
                         ScanCache.cache_index :=
                           dict_del (ScanCache.cache_index (purged d)) fp |} |}).
      destruct (IH d1) as (Hgone & Hpurged & Hkept & Hdel & Hfreed & Hfail
                           & Hsum & Hnodup).
      set (r := delete_files os remove_ok rest d1) in *.
      assert (Hfp : fp ∈ gone r) by (apply Hgone; left; by left).
      split_and!.
      * intros p. rewrite Hgone. subst d1. simpl. rewrite !elem_of_cons. split.
        -- intros [[->|?]|(? & ? & ?)]; auto.
        -- intros [?|([->|?] & ? & ?)]; auto.
      * intros p Hp Hnew. destruct (decide (p = fp)) as [->|Hne].
        -- subst r d1. apply delete_files_stays_purged; simpl;
             apply dict_get_del_eq.
        -- apply Hpurged; [done|]. subst d1. simpl. rewrite elem_of_cons.
           by intros [?|?].
      * intros p Hp. destruct (Hkept p Hp) as [Hc Hi]. rewrite Hc, Hi.
        subst d1. simpl.
        assert (p ≠ fp) by (intros ->; by destruct Hp).
        by rewrite !dict_get_del_ne.
      * subst d1. simpl in Hdel |- *. lia.
      * subst d1. unfold freed_by in *. simpl in Hfreed |- *.
        rewrite Hstat in Hfreed. simpl in Hfreed. lia.
      * subst d1. simpl in Hfail. lia.
      * subst d1. simpl in Hsum, Hfail |- *. lia.
      * intros Hnd. apply Hnodup. subst d1. simpl. by constructor.
    + set (d1 := {| deleted := deleted d; failed := failed d + 1;
                    total_freed := total_freed d; gone := gone d;
                    purged := purged d |}).
      destruct (IH d1) as (Hgone & Hpurged & Hkept & Hdel & Hfreed & Hfail
                           & Hsum & Hnodup).
      subst d1. simpl in *.
      split_and!; try done; try lia.
      intros p. rewrite Hgone, !elem_of_cons. split.
      * intros [?|(? & ? & ?)]; auto.
      * intros [?|([->|?] & ? & ?)]; auto. congruence.
  - destruct (IH d) as (Hgone & Hpurged & Hkept & Hdel & Hfreed & Hfail
                        & Hsum & Hnodup).
    split_and!; try done; try (simpl; lia).
    intros p. rewrite Hgone, !elem_of_cons. split.
    + intros [?|(? & ? & ?)]; auto.
    + intros [?|([->|?] & Hex & ?)]; auto.
      rewrite Hex in Hthere. simpl in Hthere.
      apply bool_decide_eq_false in Hthere. left. by apply dec_stable.
Qed.

(** X12: a confirmed [_delete_selected] removes exactly the selected
    paths that exist and that [os.remove] accepts, each once; every
    removed path has lost its cache entry and its index signature, and the
    entries of all other paths are untouched; [deleted] counts the removed
    paths, [total_freed] adds up their sizes, [deleted + failed] never
    exceeds the size of the selection; and the purged cache is saved
    (unless the selection is empty, when nothing is done). Without
    confirmation nothing changes. *)
Theorem delete_selected_purges
    (os : OS) (remove_ok : string → bool) (all_selected : list string)
    (self : DiskMonitorGUI.t) :
  let r := _delete_selected os remove_ok true all_selected self in
  let before := DiskMonitorGUI.cache self in
  let after := DiskMonitorGUI.cache r.1 in
  (∀ p, p ∈ gone r.2 ↔
        p ∈ all_selected ∧ os_path_exists os p = true ∧ remove_ok p = true)
  ∧ NoDup (gone r.2)
  ∧ (∀ p, p ∈ gone r.2 →
          dict_get (ScanCache.cache after) p = None
          ∧ dict_get (ScanCache.cache_index after) p = None)
  ∧ (∀ p, p ∉ gone r.2 →
          dict_get (ScanCache.cache after) p = dict_get (ScanCache.cache before) p
          ∧ dict_get (ScanCache.cache_index after) p
            = dict_get (ScanCache.cache_index before) p)
  ∧ deleted r.2 = Z.of_nat (length (gone r.2))
  ∧ total_freed r.2 = freed_by os (gone r.2)
  ∧ 0 ≤ failed r.2
  ∧ deleted r.2 + failed r.2 ≤ Z.of_nat (length all_selected)
  ∧ (all_selected ≠ [] → DiskMonitorGUI.scan_cache_files r.1 = after)
  ∧ (_delete_selected os remove_ok false all_selected self).1 = self.
Proof.
  intros r before after. subst r before after. unfold _delete_selected.
  set (d0 := {| deleted := 0; failed := 0; total_freed := 0; gone := [];
                purged := DiskMonitorGUI.cache self |}).
  destruct all_selected as [|fp rest].
  { simpl. split_and!; try done.
    - intros p. split; [by intros ?%elem_of_nil|by intros [?%elem_of_nil _]].
    - constructor.
    - by intros p ?%elem_of_nil. }
  destruct (delete_files_spec os remove_ok (fp :: rest) d0)
    as (Hgone & Hpurged & Hkept & Hdel & Hfreed & Hfail & Hsum & Hnodup).
  cbn [negb fst snd DiskMonitorGUI.cache DiskMonitorGUI.cache_save_cache
       DiskMonitorGUI.set_cache DiskMonitorGUI.set_scan_cache_files
       DiskMonitorGUI.scan_cache_files].
  change (gone d0) with (@nil string) in *.
  change (deleted d0) with 0 in *. change (failed d0) with 0 in *.
  change (total_freed d0) with 0 in *.
  change (purged d0) with (DiskMonitorGUI.cache self) in *.
  change (freed_by os []) with 0 in *.
  change (Z.of_nat (length (@nil string))) with 0 in *.
  split_and!; try done; try lia.
  - intros p. rewrite Hgone. split; [|by right].
    intros [Hnil|?]; [by apply elem_of_nil in Hnil|done].
  - apply Hnodup. constructor.
  - intros p Hp. apply Hpurged; [done|]. apply not_elem_of_nil.
Qed.

(** X13: after [_clear_cache], no lookup in either cache is valid, on any
    machine, and both cache files are empty. *)
Theorem clear_cache_forgets_everything
    (os : OS) (self : DiskMonitorGUI.t) (path : string) :
  let after := _clear_cache self in
  ScanCache.is_cached os (DiskMonitorGUI.cache after) path = Ok (false, PNone)
  ∧ DirCache.is_cached os (DiskMonitorGUI.dir_cache after) path = (false, None)
  ∧ DiskMonitorGUI.scan_cache_files after = ScanCache.empty
  ∧ DiskMonitorGUI.dir_cache_file after = ∅.
Proof.
  simpl. split_and!; try done.
  unfold ScanCache.is_cached.
  by destruct (ScanCache.get_file_signature os path).
Qed.

(** X14: importing what [_export_cache] wrote restores the file cache and
    its index exactly, saves them, and leaves the directory cache alone;
    importing a JSON object that has neither member empties the file
    cache. *)
Theorem export_then_import_restores (exported target : DiskMonitorGUI.t) :
  let restored := _import_cache (_export_cache exported) target in
  let emptied :=
    _import_cache {| blob_cache := None; blob_cache_index := None |} target in
  DiskMonitorGUI.cache restored = DiskMonitorGUI.cache exported
  ∧ DiskMonitorGUI.scan_cache_files restored = DiskMonitorGUI.cache exported
  ∧ DiskMonitorGUI.dir_cache restored = DiskMonitorGUI.dir_cache target
  ∧ DiskMonitorGUI.dir_cache_file restored = DiskMonitorGUI.dir_cache_file target
  ∧ DiskMonitorGUI.cache emptied = ScanCache.empty.
Proof.
  simpl. by destruct (DiskMonitorGUI.cache exported).
Qed.

(** * Further properties of the file scan *)

Lemma check_cache_unknown_path os min_size file_path self :
  dict_get (ScanCache.cache_index (DiskMonitorGUI.cache self)) file_path = None →
  DiskMonitorGUI.check_cache os min_size file_path self = None.
Proof.
  intros Hindex. unfold DiskMonitorGUI.check_cache, ScanCache.is_cached.
  rewrite Hindex.
  by destruct (ScanCache.get_file_signature os file_path).
Qed.

(** X15: a readable file below the size threshold that is not classified
    as useless is counted as scanned but never enters the file cache, so
    a path the index does not know stays unknown and every later quick
    scan stats it again. *)
Theorem small_ordinary_file_is_never_cached
    (os : OS) (rt : Runtime) (use_cache : bool) (min_size : Z)
    (root file : string) (total_scanned : Z) (self : DiskMonitorGUI.t)
    (stat : stat_result) :
  let file_path := os_path_join os root file in
  os_path_islink os file_path = false →
  os_stat os file_path = Some stat →
  st_size stat < min_size →
  DiskMonitorGUI._is_useless_file rt file_path = false →
  dict_get (ScanCache.cache_index (DiskMonitorGUI.cache self)) file_path = None →
  let r :=
    DiskMonitorGUI.scan_file os rt use_cache min_size root file
      total_scanned self in
  r.1 = total_scanned + 1
  ∧ DiskMonitorGUI.cache r.2 = DiskMonitorGUI.cache self
  ∧ DiskMonitorGUI.scanned_count r.2 = DiskMonitorGUI.scanned_count self + 1.
Proof.
  intros file_path Hlink Hstat Hsmall Hplain Hindex r. subst r.
  unfold DiskMonitorGUI.scan_file. cbv zeta. fold file_path. rewrite Hlink.
  rewrite (check_cache_unknown_path os min_size file_path self Hindex).
  replace (if use_cache then None else None) with (@None DiskMonitorGUI.t)
    by (by destruct use_cache).
  unfold DiskMonitorGUI.scan_fresh_file. cbv zeta. rewrite Hstat, Hplain.
  apply Z.leb_gt in Hsmall. rewrite Hsmall. cbn [fst snd].
  by destruct ((total_scanned + 1) mod 500 =? 0).
Qed.

Lemma small_ordinary_file_is_never_cached_witness :
  (DiskMonitorGUI.scan_file Fixtures.nt_one_file Fixtures.rt_plain true 1000
     "C:" "big.iso" 0 (Fixtures.gui None)).1 = 1
  ∧ DiskMonitorGUI.cache
      (DiskMonitorGUI.scan_file Fixtures.nt_one_file Fixtures.rt_plain true 1000
         "C:" "big.iso" 0 (Fixtures.gui None)).2
    = ScanCache.empty.
Proof.
  destruct (small_ordinary_file_is_never_cached Fixtures.nt_one_file
              Fixtures.rt_plain true 1000 "C:" "big.iso" 0 (Fixtures.gui None)
              (Fixtures.mkstat 700 42 7))
    as (Hcount & Hcache & _); try reflexivity.
  by split.
Defined.

(** X16: for a file that is both large and useless, the second
    [update_cache] of the loop body replaces the first: the cache ends
    with the useless-file record (which has a ['reason'] and no
    ['modified'] or ['type']), not with the large-file record. *)
Theorem useless_record_replaces_large_record
    (os : OS) (rt : Runtime) (min_size : Z) (file_path file modified : string)
    (age_days total_scanned : Z) (self : DiskMonitorGUI.t) (stat : stat_result) :
  os_stat os file_path = Some stat →
  min_size ≤ st_size stat →
  fromtimestamp_isoformat rt (st_mtime stat) = Some modified →
  DiskMonitorGUI._is_useless_file rt file_path = true →
  age_in_days rt (st_mtime stat) = Some age_days →
  let r :=
    DiskMonitorGUI.scan_fresh_file os rt min_size file_path file
      total_scanned self in
  dict_get (ScanCache.cache (DiskMonitorGUI.cache r.2)) file_path
  = Some (PDict [("path", PStr file_path); ("size", PInt (st_size stat));
                 ("reason", PStr (DiskMonitorGUI._get_useless_reason rt file_path));
                 ("age_days", PInt age_days); ("source", PStr "扫描")]).
Proof.
  intros Hstat Hlarge Hiso Huseless Hage r. subst r.
  unfold DiskMonitorGUI.scan_fresh_file. cbv zeta.
  rewrite Hstat, Hiso, Huseless, Hage.
  apply Z.leb_le in Hlarge. rewrite Hlarge. cbn [fst snd].
  assert (Hcache : ∀ c info,
    dict_get (ScanCache.cache (ScanCache.update_cache os c file_path info))
      file_path = Some info).
  { intros c info. unfold ScanCache.update_cache.
    rewrite (get_file_signature_readable _ _ _ Hstat). simpl.
    apply dict_get_set_eq. }
  destruct ((total_scanned + 1) mod 500 =? 0); simpl; apply Hcache.
Qed.

Lemma useless_record_replaces_large_record_witness :
  dict_get
    (ScanCache.cache
       (DiskMonitorGUI.cache
          (DiskMonitorGUI.scan_fresh_file Fixtures.nt_all_large
             Fixtures.rt_plain 1000 "C:\old.tmp" "old.tmp" 0
             (Fixtures.gui None)).2)) "C:\old.tmp"
  = Some (PDict [("path", PStr "C:\old.tmp"); ("size", PInt 20971520);
                 ("reason", PStr "临时文件"); ("age_days", PInt 0);
                 ("source", PStr "扫描")]).
Proof.
  by apply (useless_record_replaces_large_record Fixtures.nt_all_large
              Fixtures.rt_plain 1000 "C:\old.tmp" "old.tmp"
              "2024-01-01T00:00:00" 0 0 (Fixtures.gui None)
              (Fixtures.mkstat 20971520 1 1)).
Defined.

(** X17: a file that [_is_useless_file] does not flag gets the fallback
    reason from [_get_useless_reason]: every specific reason is given
    only to files that [_is_useless_file] flags. *)
Theorem unflagged_file_has_fallback_reason (rt : Runtime) (file_path : string) :
  DiskMonitorGUI._is_useless_file rt file_path = false →
  DiskMonitorGUI._get_useless_reason rt file_path = "可疑文件".
Proof.
  unfold DiskMonitorGUI._is_useless_file, DiskMonitorGUI._get_useless_reason.
  cbv zeta.
  destruct (existsb _ DiskMonitorGUI.useless_extensions); [done|].
  cbn [existsb]. intros H.
  repeat (apply orb_false_iff in H as [? H]).
  by repeat match goal with Hc : str_contains _ _ = false |- _ =>
              rewrite Hc; clear Hc end.
Qed.

Lemma unflagged_file_has_fallback_reason_witness :
  DiskMonitorGUI._get_useless_reason Fixtures.rt_plain "C:\big.iso" = "可疑文件".
Proof.
  by apply (unflagged_file_has_fallback_reason Fixtures.rt_plain "C:\big.iso").
Defined.

Lemma read_scanning_stopped self :
  DiskMonitorGUI.scanning self = Some O →
  DiskMonitorGUI.read_scanning self = (false, self).
Proof.
  intros H. unfold DiskMonitorGUI.read_scanning. rewrite H. simpl.
  destruct self; simpl in *; by subst.
Qed.

(** X18: a file scan started after the flag was cleared scans nothing and
    changes no entry, with or without the cache, but still saves the file
    cache and leaves the flag cleared. *)
Theorem stopped_file_scan_only_saves
    (os : OS) (rt : Runtime) (excl : list string) (c_drive : listing)
    (use_cache : bool) (self : DiskMonitorGUI.t) :
  DiskMonitorGUI.scanning self = Some O →
  DiskMonitorGUI._scan_disk os rt excl c_drive use_cache self
  = DiskMonitorGUI.cache_save_cache self.
Proof.
  intros Hflag. unfold DiskMonitorGUI._scan_disk.
  assert (Hload : (if use_cache
                   then DiskMonitorGUI._load_from_cache os
                          (DiskMonitorGUI.min_size_mb self * 1024 * 1024) self
                   else self) = self).
  { destruct use_cache; [|done]. unfold DiskMonitorGUI._load_from_cache.
    destruct (ScanCache.cache (DiskMonitorGUI.cache self)) as [|[fp info] rest];
      [done|].
    simpl. by rewrite (read_scanning_stopped self Hflag). }
  rewrite Hload.
  destruct c_drive as [| |entries]; simpl;
    rewrite ?(read_scanning_stopped self Hflag); simpl.
  all: destruct self; simpl in *; by subst.
Qed.

Lemma stopped_file_scan_only_saves_witness :
  DiskMonitorGUI._scan_disk Fixtures.nt_all_large Fixtures.rt_plain exclude_dirs
    Fixtures.five_hundred_files true
    (DiskMonitorGUI.set_scanning (Some O) (Fixtures.gui None))
  = DiskMonitorGUI.cache_save_cache
      (DiskMonitorGUI.set_scanning (Some O) (Fixtures.gui None)).
Proof.
  by apply (stopped_file_scan_only_saves Fixtures.nt_all_large Fixtures.rt_plain
              exclude_dirs Fixtures.five_hundred_files true
              (DiskMonitorGUI.set_scanning (Some O) (Fixtures.gui None))).
Defined.

Lemma dict_set_keys {V} (d : list (string * V)) (k : string) (v : V) :
  k ∈ d.*1 → (dict_set d k v).*1 = d.*1.
Proof.
  induction d as [|[k' v'] d IH]; intros Hk.
  - by apply elem_of_nil in Hk.
  - rewrite fmap_cons in Hk. apply elem_of_cons in Hk as [Hk|Hk];
      cbn [dict_set]; simpl in Hk.
    + subst k'. by rewrite String.eqb_refl.
    + destruct (String.eqb_spec k' k) as [->|Hne]; [done|].
      rewrite !fmap_cons. f_equal. by apply IH.
Qed.

Lemma load_item_keeps_keys os min_size file_path file_info self :
  file_path ∈ (ScanCache.cache (DiskMonitorGUI.cache self)).*1 →
  let after := DiskMonitorGUI.load_item os min_size file_path file_info self in
  (ScanCache.cache (DiskMonitorGUI.cache after)).*1
  = (ScanCache.cache (DiskMonitorGUI.cache self)).*1
  ∧ ScanCache.cache_index (DiskMonitorGUI.cache after)
    = ScanCache.cache_index (DiskMonitorGUI.cache self)
  ∧ DiskMonitorGUI.scan_cache_files after = DiskMonitorGUI.scan_cache_files self
  ∧ DiskMonitorGUI.scanned_count after = DiskMonitorGUI.scanned_count self
  ∧ DiskMonitorGUI.cached_count after = DiskMonitorGUI.cached_count self.
Proof.
  intros Hin. unfold DiskMonitorGUI.load_item.
  case_all_matches; simpl; split_and!; try done.
  all: by apply dict_set_keys.
Qed.

(** X19: [_load_from_cache] neither adds nor drops a cached path, and
    leaves the index, the cache files and both counters as they are: all
    it can change is the content of cached entries (their ['source']). *)
Theorem load_from_cache_keeps_paths
    (os : OS) (min_size : Z) (self : DiskMonitorGUI.t) :
  let after := DiskMonitorGUI._load_from_cache os min_size self in
  (ScanCache.cache (DiskMonitorGUI.cache after)).*1
  = (ScanCache.cache (DiskMonitorGUI.cache self)).*1
  ∧ ScanCache.cache_index (DiskMonitorGUI.cache after)
    = ScanCache.cache_index (DiskMonitorGUI.cache self)
  ∧ DiskMonitorGUI.scan_cache_files after = DiskMonitorGUI.scan_cache_files self
  ∧ DiskMonitorGUI.scanned_count after = DiskMonitorGUI.scanned_count self
  ∧ DiskMonitorGUI.cached_count after = DiskMonitorGUI.cached_count self.
Proof.
  unfold DiskMonitorGUI._load_from_cache.
  assert (Hloop : ∀ items s,
    items.*1 ⊆ (ScanCache.cache (DiskMonitorGUI.cache s)).*1 →
    let after := DiskMonitorGUI.load_items os min_size items s in
    (ScanCache.cache (DiskMonitorGUI.cache after)).*1
    = (ScanCache.cache (DiskMonitorGUI.cache s)).*1
    ∧ ScanCache.cache_index (DiskMonitorGUI.cache after)
      = ScanCache.cache_index (DiskMonitorGUI.cache s)
    ∧ DiskMonitorGUI.scan_cache_files after = DiskMonitorGUI.scan_cache_files s
    ∧ DiskMonitorGUI.scanned_count after = DiskMonitorGUI.scanned_count s
    ∧ DiskMonitorGUI.cached_count after = DiskMonitorGUI.cached_count s).
  { induction items as [|[fp info] rest IH]; intros s Hsub; [done|].
    cbn [DiskMonitorGUI.load_items].
    unfold DiskMonitorGUI.read_scanning.
    destruct (flag_read (DiskMonitorGUI.scanning s)) as [[|] f]; cbn [negb];
      [|done].
    set (s0 := DiskMonitorGUI.set_scanning f s).
    assert (Hfp : fp ∈ (ScanCache.cache (DiskMonitorGUI.cache s0)).*1).
    { apply Hsub. simpl. by left. }
    destruct (load_item_keeps_keys os min_size fp info s0 Hfp)
      as (Hk & Hi & Hf & Hs & Hc).
    destruct (IH (DiskMonitorGUI.load_item os min_size fp info s0))
      as (Hk' & Hi' & Hf' & Hs' & Hc').
    { rewrite Hk. intros x Hx. apply Hsub. simpl. by right. }
    subst s0. simpl in Hk, Hi, Hf, Hs, Hc.
    split_and!; congruence. }
  by apply Hloop.
Qed.

(** * Further properties of the directory pass: the top level *)

Lemma dir_cache_is_cached_shape os c key valid cached :
  DirCache.is_cached os c key = (valid, cached) →
  (valid = true ∧ is_Some cached) ∨ (valid = false ∧ cached = None).
Proof.
  unfold DirCache.is_cached. intros H.
  destruct (c !! key); [|by right; simplify_eq].
  case_decide; simplify_eq; [left|right]; by eauto.
Qed.

Lemma set_dir_scanning_same self :
  DiskMonitorGUI.dir_scanning self = None →
  DiskMonitorGUI.set_dir_scanning None self = self.
Proof. intros H. destruct self; simpl in *; by subst. Qed.

(** X20: on a root that can be listed, in a pass that nobody stops,
    [_scan_directory] reports exactly the totals and children that
    [_scan_directory_recursive] returns for that root under the policy of
    the check box, with status "cached" on a hit and "scanned" otherwise;
    it leaves the same directory cache, saves it, and lowers the flag. *)
Theorem scan_directory_agrees_with_recursive
    (os : OS) (excl : list string) (entries : list dirent) (root_path : string)
    (self : DiskMonitorGUI.t) :
  DiskMonitorGUI.dir_scanning self = None →
  let top :=
    DiskMonitorGUI._scan_directory os excl (ScandirOk entries) root_path ""
      self in
  let rec :=
    DiskMonitorGUI._scan_directory_recursive os excl (ScandirOk entries)
      root_path (DiskMonitorGUI.include_system_var self) self in
  let hit :=
    (DirCache.is_cached os (DiskMonitorGUI.dir_cache self)
       (cache_key (os_path_normpath os root_path)
          (DiskMonitorGUI.include_system_var self))).1 in
  top.2 = Some {| DiskMonitorGUI.report_size := rec.2.1.1;
                  DiskMonitorGUI.report_file_count := rec.2.1.2;
                  DiskMonitorGUI.report_status :=
                    if hit then StatusCached else StatusScanned;
                  DiskMonitorGUI.report_subdirs := rec.2.2 |}
  ∧ DiskMonitorGUI.dir_cache top.1 = DiskMonitorGUI.dir_cache rec.1
  ∧ DiskMonitorGUI.dir_cache_file top.1 = DiskMonitorGUI.dir_cache top.1
  ∧ DiskMonitorGUI.dir_scanning top.1 = Some O.
Proof.
  intros Hflag top rec hit. subst top rec hit.
  rewrite scan_directory_recursive_unfold.
  unfold DiskMonitorGUI._scan_directory, DiskMonitorGUI.scan_directory_finish.
  cbv zeta. rewrite (read_dir_scanning_unstopped self Hflag).
  rewrite (set_dir_scanning_same self Hflag). cbn [negb String.eqb].
  destruct (DirCache.is_cached os _ _) as [[|] [cached|]] eqn:Hhit;
    cbn [fst snd]; try done;
    try (by apply dir_cache_is_cached_shape in Hhit as [[_ [? [=]]]|[[=] _]]).
  all: pose proof (scan_entries_unstopped os excl (os_path_normpath os root_path)
         (DiskMonitorGUI.include_system_var self) entries 0 0 []
         (DiskMonitorGUI.record_call (Scandir (os_path_normpath os root_path))
            self) Hflag) as [Hdone _].
  all: destruct (DiskMonitorGUI.scan_entries _ _ _ _ _ entries _ _ _ _)
         as [mid [completed [[ts fc] sd]]]; simpl in Hdone; subst completed.
  all: cbn [fst snd]; by destruct (fc mod 100 =? 0).
Qed.

Lemma scan_directory_agrees_with_recursive_witness :
  DiskMonitorGUI.report_size
    <$> (DiskMonitorGUI._scan_directory Fixtures.posix_R exclude_dirs
           Fixtures.tree_R "/R" "" (Fixtures.gui None)).2
  = Some 3000.
Proof.
  destruct (scan_directory_agrees_with_recursive Fixtures.posix_R exclude_dirs
              (listing_entries Fixtures.tree_R) "/R" (Fixtures.gui None)
              eq_refl) as [Hrep _].
  change (ScandirOk (listing_entries Fixtures.tree_R)) with Fixtures.tree_R
    in Hrep.
  by rewrite Hrep.
Defined.

(** X21: a directory that cannot be listed is recorded as empty by
    [_scan_directory_recursive] (zero totals are returned and, when the
    key can be signed, cached), whereas [_scan_directory] records nothing
    for such a root and reports it with the status "no permission" or
    "error". *)
Theorem unlistable_directory
    (os : OS) (excl : list string) (dir : listing) (dir_path sig : string)
    (self : DiskMonitorGUI.t) :
  dir = ScandirPermissionError ∨ dir = ScandirError →
  DiskMonitorGUI.dir_scanning self = None →
  let key :=
    cache_key (os_path_normpath os dir_path)
      (DiskMonitorGUI.include_system_var self) in
  DirCache.is_cached os (DiskMonitorGUI.dir_cache self) key = (false, None) →
  DirCache.get_dir_signature os key = Some sig →
  let rec :=
    DiskMonitorGUI._scan_directory_recursive os excl dir dir_path
      (DiskMonitorGUI.include_system_var self) self in
  let top := DiskMonitorGUI._scan_directory os excl dir dir_path "" self in
  rec.2 = (0, 0, [])
  ∧ DiskMonitorGUI.dir_cache rec.1 !! key
    = Some {| DirCache.signature := Some sig; DirCache.size := 0;
              DirCache.file_count := 0; DirCache.subdirs := [] |}
  ∧ DiskMonitorGUI.dir_cache top.1 = DiskMonitorGUI.dir_cache self
  ∧ top.2 = Some {| DiskMonitorGUI.report_size := 0;
                    DiskMonitorGUI.report_file_count := 0;
                    DiskMonitorGUI.report_status :=
                      match dir with
                      | ScandirPermissionError => StatusNoPermission
                      | _ => StatusError
                      end;
                    DiskMonitorGUI.report_subdirs := [] |}.
Proof.
  intros Hdir Hflag key Hmiss Hsig rec top. subst rec top.
  rewrite scan_directory_recursive_unfold.
  unfold DiskMonitorGUI._scan_directory, DiskMonitorGUI.scan_directory_finish.
  cbv zeta. rewrite (read_dir_scanning_unstopped self Hflag).
  rewrite (set_dir_scanning_same self Hflag). cbn [negb String.eqb].
  fold key. rewrite Hmiss.
  destruct Hdir as [-> | ->]; cbn [fst snd]; split_and!; try done.
  all: simpl; by apply update_cache_lookup.
Qed.

Lemma unlistable_directory_witness :
  (DiskMonitorGUI._scan_directory_recursive Fixtures.posix_keyed exclude_dirs
     ScandirPermissionError "/R" true (Fixtures.gui None)).2 = (0, 0, [])
  ∧ DiskMonitorGUI.dir_cache
      (DiskMonitorGUI._scan_directory_recursive Fixtures.posix_keyed exclude_dirs
         ScandirPermissionError "/R" true (Fixtures.gui None)).1
    !! "/R_system_True"
    = Some {| DirCache.signature := Some "9_20"; DirCache.size := 0;
              DirCache.file_count := 0; DirCache.subdirs := [] |}.
Proof.
  destruct (unlistable_directory Fixtures.posix_keyed exclude_dirs
              ScandirPermissionError "/R" "9_20" (Fixtures.gui None))
    as (Hres & Hcache & _); try reflexivity; [by left|].
  by split.
Defined.

Lemma dict_set_elem_of {V} (d : list (string * V)) (k : string) (v : V) kv :
  kv ∈ dict_set d k v → kv ∈ d ∨ kv = (k, v).
Proof.
  induction d as [|[k' v'] d IH]; simpl.
  - intros ->%list_elem_of_singleton. by right.
  - destruct (String.eqb_spec k' k) as [->|Hne]; rewrite !elem_of_cons.
    + intros [->|?]; [by right|left; by right].
    + intros [->|Hin]; [left; by left|].
      destruct (IH Hin) as [?|?]; [left; by right|by right].
Qed.

(** The children that the loop adds are subdirectories of the listing
    that the policy keeps and that hold something. *)
Lemma scan_entries_children os excl recurse dir_path incl entries :
  ∀ ts fc sd self name s,
    (name, s) ∈ (DiskMonitorGUI.scan_entries os excl recurse dir_path incl
                   entries ts fc sd self).2.2.2 →
    (name, s) ∈ sd
    ∨ ((∃ sub, DirEntry name sub ∈ entries)
       ∧ negb incl && _should_exclude os excl (os_path_join os dir_path name)
         = false
       ∧ (0 < summary_size s ∨ 0 < summary_file_count s)).
Proof.
  induction entries as [|e rest IH]; intros ts fc sd self name s; simpl;
    [by left|].
  destruct (DiskMonitorGUI.read_dir_scanning self) as [running self0].
  destruct running; simpl; [|by left].
  assert (Hrest : ∀ ts' fc' self',
    (name, s) ∈ (DiskMonitorGUI.scan_entries os excl recurse dir_path incl
                   rest ts' fc' sd self').2.2.2 →
    (name, s) ∈ sd
    ∨ ((∃ sub, DirEntry name sub ∈ e :: rest)
       ∧ negb incl && _should_exclude os excl (os_path_join os dir_path name)
         = false
       ∧ (0 < summary_size s ∨ 0 < summary_file_count s))).
  { intros ts' fc' self' Hin.
    destruct (IH _ _ _ _ _ _ Hin) as [?|([sub Hsub] & ? & ?)]; [by left|].
    right. split; [exists sub; by right|done]. }
  destruct e as [ename [stat|]|ename sub|ename|ename]; try apply Hrest.
  destruct (negb incl && _should_exclude os excl (os_path_join os dir_path ename))
    eqn:Hexcl; [apply Hrest|].
  destruct (recurse sub (os_path_join os dir_path ename) incl self0)
    as [self1 [[sub_size sub_count] sub_subdirs]].
  destruct ((0 <? sub_size) || (0 <? sub_count)) eqn:Hpos; [|apply Hrest].
  intros Hin.
  destruct (IH _ _ _ _ _ _ Hin) as [Hset|([sub' Hsub] & ? & ?)].
  - apply dict_set_elem_of in Hset as [?|[= -> ->]]; [by left|].
    right. split; [exists sub; by left|]. split; [done|].
    simpl. apply orb_true_iff in Hpos as [?%Z.ltb_lt|?%Z.ltb_lt]; auto.
  - right. split; [exists sub'; by right|done].
Qed.

(** X22: the children dictionary of a freshly computed summary only lists
    subdirectories of the directory that the policy does not exclude and
    in which the pass found something (a positive size or file count):
    empty and excluded subdirectories never appear in it. *)
Theorem children_are_kept_nonempty_subdirectories
    (os : OS) (excl : list string) (dir : listing) (dir_path : string)
    (include_system : bool) (self : DiskMonitorGUI.t)
    (name : string) (child : summary) :
  DirCache.is_cached os (DiskMonitorGUI.dir_cache self)
    (cache_key (os_path_normpath os dir_path) include_system) = (false, None) →
  (name, child)
    ∈ (DiskMonitorGUI._scan_directory_recursive os excl dir dir_path
         include_system self).2.2 →
  (∃ sub, DirEntry name sub ∈ listing_entries dir)
  ∧ (include_system = false →
     _should_exclude os excl
       (os_path_join os (os_path_normpath os dir_path) name) = false)
  ∧ (0 < summary_size child ∨ 0 < summary_file_count child).
Proof.
  intros Hmiss. rewrite scan_directory_recursive_unfold. cbv zeta.
  rewrite Hmiss.
  destruct dir as [| |entries]; cbn [fst snd];
    try (by intros ?%elem_of_nil).
  pose proof (scan_entries_children os excl
                (DiskMonitorGUI._scan_directory_recursive os excl)
                (os_path_normpath os dir_path) include_system entries 0 0 []
                (DiskMonitorGUI.record_call
                   (Scandir (os_path_normpath os dir_path)) self)
                name child) as Hloop.
  destruct (DiskMonitorGUI.scan_entries _ _ _ _ _ entries _ _ _ _)
    as [mid [completed [[ts fc] sd]]].
  cbn [fst snd] in Hloop.
  intros Hin.
  assert (Hin' : (name, child) ∈ sd) by (by destruct completed).
  destruct (Hloop Hin') as [?%elem_of_nil|(Hsub & Hexcl & Hpos)]; [done|].
  split_and!; [done| |done].
  intros ->. by simpl in Hexcl.
Qed.

Lemma children_are_kept_nonempty_subdirectories_witness :
  (∃ sub, DirEntry "S" sub ∈ listing_entries Fixtures.tree_R)
  ∧ (0 < summary_size (Summary 2000 1 [])
     ∨ 0 < summary_file_count (Summary 2000 1 [])).
Proof.
  destruct (children_are_kept_nonempty_subdirectories Fixtures.posix_R
              exclude_dirs Fixtures.tree_R "/R" true (Fixtures.gui None)
              "S" (Summary 2000 1 [])) as (Hsub & _ & Hpos).
  - reflexivity.
  - vm_compute. apply list_elem_of_here.
  - by split.
Defined.

(** X23: in a quick scan, a file that the cache reports as valid with a
    non-empty entry ends the loop iteration there: it is not counted in
    [total_scanned] (so it never triggers a save), [cached_count] grows by
    one, the index and the cache files are untouched, no path enters or
    leaves the cache, and the only entry that can change is that of the
    file itself, whose ['source'] is set when its size reaches the
    threshold. *)
Theorem quick_scan_hit_is_not_rescanned
    (os : OS) (rt : Runtime) (min_size : Z) (root file : string)
    (total_scanned : Z) (self : DiskMonitorGUI.t) (cached_info : pyval) :
  let file_path := os_path_join os root file in
  os_path_islink os file_path = false →
  ScanCache.is_cached os (DiskMonitorGUI.cache self) file_path
  = Ok (true, cached_info) →
  py_truthy cached_info = true →
  let r :=
    DiskMonitorGUI.scan_file os rt true min_size root file total_scanned self in
  r.1 = total_scanned
  ∧ DiskMonitorGUI.cached_count r.2 = DiskMonitorGUI.cached_count self + 1
  ∧ DiskMonitorGUI.scanned_count r.2 = DiskMonitorGUI.scanned_count self
  ∧ ScanCache.cache_index (DiskMonitorGUI.cache r.2)
    = ScanCache.cache_index (DiskMonitorGUI.cache self)
  ∧ DiskMonitorGUI.scan_cache_files r.2 = DiskMonitorGUI.scan_cache_files self
  ∧ (∀ other, other ≠ file_path →
       dict_get (ScanCache.cache (DiskMonitorGUI.cache r.2)) other
       = dict_get (ScanCache.cache (DiskMonitorGUI.cache self)) other)
  ∧ (dict_get (ScanCache.cache (DiskMonitorGUI.cache r.2)) file_path
     = dict_get (ScanCache.cache (DiskMonitorGUI.cache self)) file_path
     ∨ dict_get (ScanCache.cache (DiskMonitorGUI.cache r.2)) file_path
       = Some (py_setitem cached_info "source" (PStr "缓存"))).
Proof.
  intros file_path Hlink Hhit Htruthy r. subst r.
  unfold DiskMonitorGUI.scan_file. cbv zeta. fold file_path. rewrite Hlink.
  unfold DiskMonitorGUI.check_cache, DiskMonitorGUI._update_from_cache.
  rewrite Hhit, Htruthy. cbn [andb].
  destruct (py_get_default cached_info "size" (PInt 0)) as [size|];
    [|by split_and!; try done; left].
  destruct (py_ge_int size min_size) as [[|]|];
    try (by split_and!; try done; left).
  cbn [DiskMonitorGUI.min_size_mb DiskMonitorGUI.set_cached_count].
  destruct (py_ge_int size (DiskMonitorGUI.min_size_mb self * 1024 * 1024))
    as [[|]|]; try (by split_and!; try done; left).
  cbn [fst snd]. split_and!; try done.
  - intros other Hne. simpl. by apply dict_get_set_ne.
  - right. simpl. apply dict_get_set_eq.
Qed.

Lemma quick_scan_hit_is_not_rescanned_witness :
  (DiskMonitorGUI.scan_file Fixtures.nt_one_file Fixtures.rt_plain true 500
     "C:" "big.iso" 7
     (DiskMonitorGUI.set_cache
        (ScanCache.update_cache Fixtures.nt_one_file ScanCache.empty
           "C:\big.iso" (PDict [("path", PStr "C:\big.iso"); ("size", PInt 700)]))
        (Fixtures.gui None))).1 = 7.
Proof.
  by apply (quick_scan_hit_is_not_rescanned Fixtures.nt_one_file
              Fixtures.rt_plain 500 "C:" "big.iso" 7
              (DiskMonitorGUI.set_cache
                 (ScanCache.update_cache Fixtures.nt_one_file ScanCache.empty
                    "C:\big.iso"
                    (PDict [("path", PStr "C:\big.iso"); ("size", PInt 700)]))
                 (Fixtures.gui None))
              (PDict [("path", PStr "C:\big.iso"); ("size", PInt 700)])).
Defined.
